(** * Bounty-board webhook relay: model of [src/index.ts] and its properties

    The relay polls an upstream bounty API, diffs the fetched list against
    a record persisted in [state.json], posts events to the configured
    webhook URLs and serves three HTTP routes.  This development embeds the
    program function by function and proves the properties of its poll
    cycle, filter, proxy route and configuration.

    Modelling conventions.
    - Strings are byte strings; [trim] and [toLowerCase] act on ASCII.
    - A JavaScript number is [NaN], an infinity or an exact rational: the
      rounding and overflow of binary64 are not represented.
    - Objects used as dictionaries ([state.bounties], [STATUS_TO_EVENT])
      are finite maps over their own properties, read through the prototype
      chain: a key without an own property that names a member of
      [Object.prototype] yields that member, and an assignment to
      [__proto__] where no own property of that name exists is swallowed by
      the inherited setter.
    - The state file holds a parsed value: on the values the program
      writes, [JSON.parse] undoes [JSON.stringify].  A write either succeeds
      or is refused before the file is touched; a write that fails after
      the file was truncated is not represented.
    - A response body is the JSON value sent: [Response.json] writes a
      number that is not finite as [null].
    - Thrown exceptions are results of a state-and-exception monad whose
      store survives a throw, as JavaScript variables do. *)

From Stdlib Require Import ZArith QArith Qreduction Bool Ascii String List Lia.
From stdpp Require Import base option list gmap strings fin_maps.

Local Open Scope Z_scope.

(** ** JavaScript numbers *)

Module Num.

Inductive t : Type :=
  | NaN
  | Inf (negative : bool)
  | Fin (q : Q).

Definition ofZ (z : Z) : t := Fin (inject_Z z).

Definition Qltb (p q : Q) : bool := negb (Qle_bool q p).

(** [x < y]; every comparison with [NaN] is false. *)
Definition lt (x y : t) : bool :=
  match x, y with
  | NaN, _ | _, NaN => false
  | Inf true, Inf true => false
  | Inf true, _ => true
  | _, Inf true => false
  | Inf false, _ => false
  | Fin _, Inf false => true
  | Fin p, Fin q => Qltb p q
  end.

Definition gt (x y : t) : bool := lt y x.

(** [x >= y]. *)
Definition ge (x y : t) : bool :=
  match x, y with
  | NaN, _ | _, NaN => false
  | _, _ => negb (lt x y)
  end.

Definition Qsign_neg (q : Q) : bool := Qltb q 0.
Definition Qis_zero (q : Q) : bool := Qeq_bool q 0.

(** [x * y]. *)
Definition mul (x y : t) : t :=
  match x, y with
  | NaN, _ | _, NaN => NaN
  | Inf a, Inf b => Inf (xorb a b)
  | Inf a, Fin q | Fin q, Inf a =>
      if Qis_zero q then NaN else Inf (xorb a (Qsign_neg q))
  | Fin p, Fin q => Fin (Qred (p * q))
  end.

(** [x / y]. *)
Definition div (x y : t) : t :=
  match x, y with
  | NaN, _ | _, NaN => NaN
  | Inf _, Inf _ => NaN
  | Inf a, Fin q => Inf (xorb a (Qsign_neg q))
  | Fin _, Inf _ => Fin 0
  | Fin p, Fin q =>
      if Qis_zero q
      then (if Qis_zero p then NaN else Inf (Qsign_neg p))
      else Fin (Qred (p / q))
  end.

(** Value equality on numbers that are not [NaN] ([===] without the
    distinction between the two zeros). *)
Definition eqb (x y : t) : bool :=
  match x, y with
  | Inf a, Inf b => Bool.eqb a b
  | Fin p, Fin q => Qeq_bool p q
  | _, _ => false
  end.

End Num.

(** ** Strings: [trim], [toLowerCase], [split] *)

Definition chars (s : string) : list ascii := list_ascii_of_string s.
Definition unchars (l : list ascii) : string := string_of_list_ascii l.

(** White space and line terminators of the ASCII range. *)
Definition isWhite (c : ascii) : bool :=
  let n := N_of_ascii c in
  (N.eqb n 32 || (N.leb 9 n && N.leb n 13))%N.

Fixpoint trimStartL (l : list ascii) : list ascii :=
  match l with
  | c :: r => if isWhite c then trimStartL r else l
  | [] => []
  end.

Definition trimEndL (l : list ascii) : list ascii := rev (trimStartL (rev l)).

Definition trim (s : string) : string := unchars (trimEndL (trimStartL (chars s))).

Definition lowerChar (c : ascii) : ascii :=
  let n := N_of_ascii c in
  if (N.leb 65 n && N.leb n 90)%N then ascii_of_N (n + 32) else c.

Definition toLowerCase (s : string) : string := unchars (map lowerChar (chars s)).

(** [s.split(",")]: the pieces between commas, at least one. *)
Fixpoint splitL (cur : list ascii) (l : list ascii) : list string :=
  match l with
  | [] => [unchars (rev cur)]
  | c :: r =>
      if Ascii.eqb c ","%char then unchars (rev cur) :: splitL [] r
      else splitL (c :: cur) r
  end.

Definition splitComma (s : string) : list string := splitL [] (chars s).

(** [Boolean] on a string: the empty string is falsy. *)
Definition truthy (s : string) : bool := negb (String.eqb s "").

(** ** Plain objects used as dictionaries *)

(** The members every plain object inherits from [Object.prototype]. *)
Definition objectPrototype : list string :=
  ["constructor"; "__defineGetter__"; "__defineSetter__"; "hasOwnProperty";
   "__lookupGetter__"; "__lookupSetter__"; "isPrototypeOf";
   "propertyIsEnumerable"; "toString"; "valueOf"; "__proto__";
   "toLocaleString"].

Definition inheritedKey (k : string) : bool :=
  existsb (String.eqb k) objectPrototype.

(** What [obj[k]] evaluates to on an object whose own properties hold
    strings: [undefined], an own string, or the inherited member of that
    name (a function, or the prototype itself for [__proto__]). *)
Inductive Slot : Type :=
  | Undefined
  | Own (s : string)
  | Inherited (k : string).

(** [obj[k]]: own properties shadow the inherited members. *)
Definition getProp (m : gmap string string) (k : string) : Slot :=
  match m !! k with
  | Some v => Own v
  | None => if inheritedKey k then Inherited k else Undefined
  end.

(** [obj[k] = v] for a string [v].  Without an own property [__proto__]
    the assignment reaches the setter of [Object.prototype], which ignores
    a value that is not an object; every other key gets an own property. *)
Definition setProp (m : gmap string string) (k v : string) : gmap string string :=
  match m !! k with
  | Some _ => <[k := v]> m
  | None => if String.eqb k "__proto__" then m else <[k := v]> m
  end.

(** ** Numeric conversions: [parseInt(s, 10)], [parseFloat(s)], [Number(s)] *)

Definition digitOf (radix : Z) (c : ascii) : option Z :=
  let n := Z.of_N (N_of_ascii c) in
  let v :=
    if (48 <=? n) && (n <=? 57) then n - 48
    else if (97 <=? n) && (n <=? 122) then n - 87
    else if (65 <=? n) && (n <=? 90) then n - 55
    else 99 in
  if v <? radix then Some v else None.

(** Longest run of digits at the head of [l]: its value (continuing from
    [acc]), the number of digits read and the remaining input. *)
Fixpoint digits (radix : Z) (acc : Z) (n : nat) (l : list ascii) : Z * nat * list ascii :=
  match l with
  | c :: r =>
      match digitOf radix c with
      | Some d => digits radix (acc * radix + d) (S n) r
      | None => (acc, n, l)
      end
  | [] => (acc, n, [])
  end.

Definition readSign (l : list ascii) : bool * list ascii :=
  match l with
  | "-"%char :: r => (true, r)
  | "+"%char :: r => (false, r)
  | _ => (false, l)
  end.

Fixpoint dropPrefix (p l : list ascii) : option (list ascii) :=
  match p, l with
  | [], _ => Some l
  | a :: p', b :: l' => if Ascii.eqb a b then dropPrefix p' l' else None
  | _ :: _, [] => None
  end.

(** [m * 10^e] as an exact rational. *)
Definition scale10 (m e : Z) : Q :=
  if 0 <=? e then inject_Z (m * 10 ^ e)
  else Qred (Qmake m (Z.to_pos (10 ^ (- e)))).

(** An exponent part at the head of [l], when one is well formed. *)
Definition readExponent (l : list ascii) : Z * list ascii :=
  match l with
  | c :: r =>
      if Ascii.eqb c "e"%char || Ascii.eqb c "E"%char then
        let '(neg, r1) := readSign r in
        let '(v, n, r2) := digits 10 0 0%nat r1 in
        match n with
        | O => (0, l)
        | S _ => (if neg then - v else v, r2)
        end
      else (0, l)
  | [] => (0, l)
  end.

(** Longest prefix of [l] that is a [StrDecimalLiteral], with the rest. *)
Definition scanDecimal (l : list ascii) : option (Num.t * list ascii) :=
  let '(neg, r) := readSign l in
  match dropPrefix (chars "Infinity") r with
  | Some r' => Some (Num.Inf neg, r')
  | None =>
      let '(ip, nip, r1) := digits 10 0 0%nat r in
      let '(m, nfp, r2) :=
        match r1 with
        | "."%char :: r1' =>
            let '(m, nfp, r2) := digits 10 ip 0%nat r1' in
            match nip, nfp with
            | O, O => (ip, O, r1)
            | _, _ => (m, nfp, r2)
            end
        | _ => (ip, O, r1)
        end in
      match nip, nfp with
      | O, O => None
      | _, _ =>
          let '(e, r3) := readExponent r2 in
          let q := scale10 (if neg then - m else m) (e - Z.of_nat nfp) in
          Some (Num.Fin q, r3)
      end
  end.

Definition parseFloat (s : string) : Num.t :=
  match scanDecimal (trimStartL (chars s)) with
  | Some (v, _) => v
  | None => Num.NaN
  end.

Definition parseInt10 (s : string) : Num.t :=
  let '(neg, r) := readSign (trimStartL (chars s)) in
  let '(v, n, _) := digits 10 0 0%nat r in
  match n with
  | O => Num.NaN
  | S _ => Num.ofZ (if neg then - v else v)
  end.

Definition radixLiteral (l : list ascii) : option (Z * list ascii) :=
  match l with
  | "0"%char :: c :: r =>
      if Ascii.eqb c "x"%char || Ascii.eqb c "X"%char then Some (16, r)
      else if Ascii.eqb c "o"%char || Ascii.eqb c "O"%char then Some (8, r)
      else if Ascii.eqb c "b"%char || Ascii.eqb c "B"%char then Some (2, r)
      else None
  | _ => None
  end.

(** [Number(s)] on a string: the whole trimmed text must be a numeric
    literal; the empty text is [0]. *)
Definition Number (s : string) : Num.t :=
  let l := trimEndL (trimStartL (chars s)) in
  match l with
  | [] => Num.ofZ 0
  | _ =>
      match radixLiteral l with
      | Some (radix, r) =>
          match digits radix 0 0%nat r with
          | (v, S _, []) => Num.ofZ v
          | _ => Num.NaN
          end
      | None =>
          match scanDecimal l with
          | Some (v, []) => v
          | _ => Num.NaN
          end
      end
  end.

(** ** Data model *)

Record Bounty : Type := {
  id : string;
  title : string;
  description : string;
  tags : list string;
  reward : string;
  rewardFormatted : string;
  status : string;
  creator : string;
  createdAt : Z;
  updatedAt : Z;
  claimedBy : option string;
  completedAt : option Z;
  requirements : option (list string);
}.

(** The parsed content of [state.json]: [JSON.parse] is not checked
    against the [State] interface.  [bounties] is [None] when the parsed
    value has no [bounties] property (the file holds [{}] or [null], say),
    so that indexing it throws a [TypeError]; otherwise it is the record
    from identifiers to statuses.  Files whose [bounties] is neither are
    not represented. *)
Record State : Type := {
  bounties : option (gmap string string);
}.

(** The five event names of the type declaration and, last, what the
    [event] field holds at run time when the status looked up in
    [STATUS_TO_EVENT] names a member of [Object.prototype]: that member,
    which is no event name.  [JSON.stringify] leaves a function out of the
    payload and writes the prototype itself as an empty object. *)
Inductive EventType : Type :=
  | bounty_created
  | bounty_claimed
  | bounty_submitted
  | bounty_completed
  | bounty_payment_failed
  | prototype_member (name : string).

Record WebhookPayload : Type := {
  event : EventType;
  bounty : Bounty;
  timestamp : string;
}.

(** ** Configuration *)

(** The environment variables the program reads; [None] is an unset one. *)
Record ProcessEnv : Type := {
  env_BOUNTY_API : option string;
  env_WEBHOOK_URLS : option string;
  env_POLL_INTERVAL : option string;
  env_FILTER_TAGS : option string;
  env_FILTER_MIN_REWARD : option string;
  env_PORT : option string;
}.

Record Config : Type := {
  BOUNTY_API : string;
  WEBHOOK_URLS : list string;
  POLL_INTERVAL : Num.t;
  FILTER_TAGS : list string;
  FILTER_MIN_REWARD : Num.t;
  PORT : Num.t;
}.

(** [process.env.X || d]: an unset or empty variable yields [d]. *)
Definition orDefault (v : option string) (d : string) : string :=
  match v with
  | Some s => if truthy s then s else d
  | None => d
  end.

(** The module-level constants of lines 3-14. *)
Definition loadConfig (e : ProcessEnv) : Config := {|
  BOUNTY_API := orDefault (env_BOUNTY_API e) "https://bounty.owockibot.xyz";
  WEBHOOK_URLS :=
    List.filter truthy
      (map trim (splitComma (orDefault (env_WEBHOOK_URLS e) "")));
  POLL_INTERVAL :=
    Num.mul (parseInt10 (orDefault (env_POLL_INTERVAL e) "60")) (Num.ofZ 1000);
  FILTER_TAGS :=
    List.filter truthy
      (map (fun t => toLowerCase (trim t))
         (splitComma (orDefault (env_FILTER_TAGS e) "")));
  FILTER_MIN_REWARD := parseFloat (orDefault (env_FILTER_MIN_REWARD e) "0");
  PORT := parseInt10 (orDefault (env_PORT e) "3001");
|}.

(** ** Filter policy *)

(** [FILTER_TAGS.includes(x)]. *)
Definition includes (l : list string) (x : string) : bool :=
  existsb (String.eqb x) l.

(** Lines 66-75: each [if] whose test holds returns [false]. *)
Definition matchesFilters (c : Config) (b : Bounty) : bool :=
  if negb (Nat.eqb (length (FILTER_TAGS c)) 0)
     && negb (existsb (fun t => includes (FILTER_TAGS c) (toLowerCase t)) (tags b))
  then false
  else if Num.gt (FILTER_MIN_REWARD c) (Num.ofZ 0)
          && Num.lt (Num.div (Number (reward b)) (Num.ofZ 1000000)) (FILTER_MIN_REWARD c)
  then false
  else true.

(** [STATUS_TO_EVENT[s]], lines 77-83: the five own entries of the
    object literal, then the members it inherits; [None] is [undefined]. *)
Definition STATUS_TO_EVENT (s : string) : option EventType :=
  if String.eqb s "open" then Some bounty_created
  else if String.eqb s "claimed" then Some bounty_claimed
  else if String.eqb s "submitted" then Some bounty_submitted
  else if String.eqb s "completed" then Some bounty_completed
  else if String.eqb s "payment_failed" then Some bounty_payment_failed
  else if inheritedKey s then Some (prototype_member s)
  else None.

(** ** Exceptions and the monad of effects *)

Inductive Exn : Type :=
  | NetworkError
  | ApiError (code : Z)
  | DecodeError
  | TypeError
  | RangeError
  | ReadError
  | WriteError.

Inductive Res (A : Type) : Type :=
  | Ok (a : A)
  | Throw (e : Exn).
Arguments Ok {A} a.
Arguments Throw {A} e.

(** A computation over a store [S]: it returns or throws, and in both
    cases leaves a store behind. *)
Definition M (S A : Type) : Type := S -> Res A * S.

Definition ret {S A} (a : A) : M S A := fun s => (Ok a, s).

Definition throw {S A} (e : Exn) : M S A := fun s => (Throw e, s).

Definition bind {S A B} (m : M S A) (k : A -> M S B) : M S B :=
  fun s =>
    match m s with
    | (Ok a, s') => k a s'
    | (Throw e, s') => (Throw e, s')
    end.

(** [try { m } catch (e) { h e }]. *)
Definition tryCatch {S A} (m : M S A) (h : Exn -> M S A) : M S A :=
  fun s =>
    match m s with
    | (Ok a, s') => (Ok a, s')
    | (Throw e, s') => h e s'
    end.

Notation "x <- m ;; k" := (bind m (fun x => k))
  (at level 100, m at next level, right associativity).
Notation "m ;; k" := (bind m (fun _ => k))
  (at level 100, right associativity).

(** [for (const x of l) { f x }]. *)
Fixpoint forEach {S A} (f : A -> M S unit) (l : list A) : M S unit :=
  match l with
  | [] => ret tt
  | x :: r => f x ;; forEach f r
  end.

(** ** The world outside the process *)

(** What an HTTP call meets: no connection, or a response with its status
    and, when the body decodes as JSON of the expected shape, its value. *)
Inductive HttpResult (A : Type) : Type :=
  | Unreachable
  | Responded (code : Z) (body : option A).
Arguments Unreachable {A}.
Arguments Responded {A} code body.

(** JSON values, as [res.json()] returns them and as [Response.json]
    takes them. *)
#[local] Unset Elimination Schemes.
Inductive Json : Type :=
  | JNull
  | JBool (b : bool)
  | JNum (n : Num.t)
  | JStr (s : string)
  | JArr (l : list Json)
  | JObj (fields : list (string * Json)).
#[local] Set Elimination Schemes.

(** A number as [JSON.stringify] writes it: [null] unless it is finite. *)
Definition jnum (x : Num.t) : Json :=
  match x with
  | Num.Fin _ => JNum x
  | _ => JNull
  end.

(** The value a client reads from [Response.json(j)]. *)
Fixpoint wire (j : Json) : Json :=
  match j with
  | JNum x => jnum x
  | JArr l => JArr (map wire l)
  | JObj fields => JObj (map (fun kv => (fst kv, wire (snd kv))) fields)
  | _ => j
  end.

(** What the process meets during one cycle or request: the answers of
    the upstream API and of the webhook destinations ([None] is a transport
    error, [Some code] a response), whether the state file can be written,
    and the successive readings of the clock. *)
Record Outside : Type := {
  upstream : HttpResult (list Bounty);           (* GET  {BOUNTY_API}/bounties *)
  upstreamCreate : string -> HttpResult Json;    (* POST {BOUNTY_API}/bounties *)
  hook : string -> WebhookPayload -> option Z;   (* POST to a webhook URL *)
  writable : bool;                               (* writeFileSync succeeds; if not,
                                                    it is refused at the open *)
  clock : nat -> string;                         (* new Date().toISOString() *)
}.

(** The state file: absent, present without being readable as JSON, or
    holding a parsed value. *)
Inductive Disk : Type :=
  | NoFile
  | Garbage
  | Stored (s : State).

(** What the process does to the outside, in order: requests to webhook
    destinations, console lines and calls of [writeFileSync]. *)
Inductive Effect : Type :=
  | Post (url : string) (p : WebhookPayload)
  | LogDelivered (p : WebhookPayload) (url : string) (code : Z)
  | LogWebhookError (url : string) (e : Exn)
  | LogPollError (e : Exn)
  | WarnCorrupt
  | Write (s : State).

(** The state file, the number of clock readings so far and the effects
    so far. *)
Record World : Type := {
  disk : Disk;
  ticks : nat;
  out : list Effect;
}.

Definition emit (e : Effect) : M World unit :=
  fun w => (Ok tt, {| disk := disk w; ticks := ticks w; out := out w ++ [e] |}).

(** The webhook requests among the effects, in order. *)
Definition posts (l : list Effect) : list (string * WebhookPayload) :=
  flat_map (fun e => match e with Post u p => [(u, p)] | _ => [] end) l.

(** The states handed to [writeFileSync], in order. *)
Definition writes (l : list Effect) : list State :=
  flat_map (fun e => match e with Write s => [s] | _ => [] end) l.

(** The local variables of one [poll] call, with the world it runs in. *)
Record Store : Type := {
  state : State;
  created : nat;
  changed : nat;
  errors : nat;
  world : World;
}.

(** A computation on the world, run from inside [poll]. *)
Definition lift {A} (m : M World A) : M Store A :=
  fun s =>
    let '(r, w) := m (world s) in
    (r, {| state := state s; created := created s; changed := changed s;
           errors := errors s; world := w |}).

Record PollResult : Type := {
  r_created : nat;
  r_changed : nat;
  r_errors : nat;
}.

Record Request : Type := {
  pathname : string;
  method : string;
  text : option string;   (* what [req.text()] reads; [None] when reading fails *)
}.

Record Response : Type := {
  res_status : Z;
  res_body : Json;
}.

(** ** The program *)

Section Program.

Context (c : Config) (o : Outside).

(** [{ bounties: {} }]. *)
Definition emptyState : State := {| bounties := Some ∅ |}.

(** [JSON.parse(readFileSync(STATE_FILE))]. *)
Definition readState : M World State :=
  fun w =>
    match disk w with
    | Stored s => (Ok s, w)
    | _ => (Throw DecodeError, w)
    end.

(** [existsSync(STATE_FILE)]. *)
Definition existsSync : M World bool :=
  fun w => (Ok (match disk w with NoFile => false | _ => true end), w).

(** Lines 51-60: a missing file and a file that cannot be read as JSON
    both give the empty record; the latter logs a warning. *)
Definition loadState : M World State :=
  present <- existsSync ;;
  if present : bool
  then tryCatch readState (fun _ => emit WarnCorrupt ;; ret emptyState)
  else ret emptyState.

(** [writeFileSync(STATE_FILE, JSON.stringify(state))], lines 62-64.  The
    next read parses what was written; a write refused at the open throws
    and leaves the file as it was. *)
Definition saveState (s : State) : M World unit :=
  emit (Write s) ;;
  fun w =>
    if writable o
    then (Ok tt, {| disk := Stored s; ticks := ticks w; out := out w |})
    else (Throw WriteError, w).

(** [await fetch(url, { method: "POST", ... })]. *)
Definition httpPost (url : string) (p : WebhookPayload) : M World Z :=
  emit (Post url p) ;;
  match hook o url p with
  | Some code => ret code
  | None => throw NetworkError
  end.

(** Lines 85-101: one request per destination, each in its own
    [try]/[catch]. *)
Definition fireWebhook (p : WebhookPayload) : M World unit :=
  forEach
    (fun url =>
       tryCatch
         (code <- httpPost url p ;; emit (LogDelivered p url code))
         (fun e => emit (LogWebhookError url e)))
    (WEBHOOK_URLS c).

(** [res.ok]. *)
Definition ok (code : Z) : bool := (200 <=? code) && (code <=? 299).

(** Lines 103-107. *)
Definition fetchBounties : M World (list Bounty) :=
  match upstream o with
  | Unreachable => throw NetworkError
  | Responded code body =>
      if negb (ok code) then throw (ApiError code)
      else match body with
           | Some l => ret l
           | None => throw DecodeError
           end
  end.

(** [new Date().toISOString()]. *)
Definition now : M World string :=
  fun w => (Ok (clock o (ticks w)),
            {| disk := disk w; ticks := S (ticks w); out := out w |}).

(** [state.bounties[k]]; indexing a missing record throws. *)
Definition getStatus (k : string) : M Store Slot :=
  fun s =>
    match bounties (state s) with
    | Some m => (Ok (getProp m k), s)
    | None => (Throw TypeError, s)
    end.

(** [state.bounties[k] = v]. *)
Definition setStatus (k v : string) : M Store unit :=
  fun s =>
    match bounties (state s) with
    | Some m =>
        (Ok tt, {| state := {| bounties := Some (setProp m k v) |};
                   created := created s; changed := changed s;
                   errors := errors s; world := world s |})
    | None => (Throw TypeError, s)
    end.

Definition incrCreated : M Store unit :=
  fun s => (Ok tt, {| state := state s; created := S (created s);
                      changed := changed s; errors := errors s; world := world s |}).

Definition incrChanged : M Store unit :=
  fun s => (Ok tt, {| state := state s; created := created s;
                      changed := S (changed s); errors := errors s; world := world s |}).

Definition incrErrors : M Store unit :=
  fun s => (Ok tt, {| state := state s; created := created s;
                      changed := changed s; errors := S (errors s); world := world s |}).

(** [!prevStatus]: [undefined] and the empty string are falsy; an
    inherited member is a function or an object, hence truthy. *)
Definition falsy (v : Slot) : bool :=
  match v with
  | Undefined => true
  | Own s => negb (truthy s)
  | Inherited _ => false
  end.

(** [prevStatus !== bounty.status]: only a string can equal the status. *)
Definition differs (v : Slot) (s : string) : bool :=
  match v with
  | Own p => negb (String.eqb p s)
  | _ => true
  end.

(** [WEBHOOK_URLS.length > 0]. *)
Definition hasWebhooks : bool := negb (Nat.eqb (length (WEBHOOK_URLS c)) 0).

(** The body of the loop of [poll], lines 119-146. *)
Definition processBounty (b : Bounty) : M Store unit :=
  if negb (matchesFilters c b) then ret tt
  else
    prevStatus <- getStatus (id b) ;;
    if falsy prevStatus then
      setStatus (id b) (status b) ;;
      (if hasWebhooks
       then ts <- lift now ;;
            lift (fireWebhook {| event := bounty_created; bounty := b; timestamp := ts |})
       else ret tt) ;;
      incrCreated
    else if differs prevStatus (status b) then
      (match STATUS_TO_EVENT (status b) with
       | Some ev =>
           if hasWebhooks
           then ts <- lift now ;;
                lift (fireWebhook {| event := ev; bounty := b; timestamp := ts |})
           else ret tt
       | None => ret tt
       end) ;;
      setStatus (id b) (status b) ;;
      incrChanged
    else ret tt.

(** [{ created, changed, errors }]. *)
Definition result : M Store PollResult :=
  fun s => (Ok {| r_created := created s; r_changed := changed s;
                  r_errors := errors s |}, s).

(** Lines 115-155: the [try] block with its [catch], then the result. *)
Definition pollBody : M Store PollResult :=
  tryCatch
    (bs <- lift fetchBounties ;;
     forEach processBounty bs ;;
     fun s => lift (saveState (state s)) s)
    (fun e => lift (emit (LogPollError e)) ;; incrErrors) ;;
  result.

(** Run [m] with fresh local variables over the loaded state. *)
Definition inFrame {A} (st : State) (m : M Store A) : M World A :=
  fun w =>
    let '(r, s) := m {| state := st; created := 0; changed := 0; errors := 0;
                        world := w |} in
    (r, world s).

(** Lines 109-156. *)
Definition poll : M World PollResult :=
  st <- loadState ;;
  inFrame st pollBody.

(** ** The HTTP front door *)

(** The three fixed responses and the counters below hold finite numbers
    only: they are sent as written. *)
Definition proxyFailure : Response :=
  {| res_status := 502;
     res_body := JObj [("error", JStr "Failed to proxy bounty creation")] |}.

Definition notFound : Response :=
  {| res_status := 404; res_body := JObj [("error", JStr "Not found")] |}.

(** [Response.json({ status: "ok", ... })], lines 164-169. *)
Definition health : Response :=
  {| res_status := 200;
     res_body :=
       wire
         (JObj [("status", JStr "ok");
                ("webhooks", JNum (Num.ofZ (Z.of_nat (length (WEBHOOK_URLS c)))));
                ("filterTags", JArr (map JStr (FILTER_TAGS c)));
                ("pollInterval", JNum (Num.div (POLL_INTERVAL c) (Num.ofZ 1000)))]) |}.

Definition statsJson (r : PollResult) : Json :=
  JObj [("created", JNum (Num.ofZ (Z.of_nat (r_created r))));
        ("changed", JNum (Num.ofZ (Z.of_nat (r_changed r))));
        ("errors", JNum (Num.ofZ (Z.of_nat (r_errors r))))].

(** [await fetch(`${BOUNTY_API}/bounties`, { method: "POST", body })]. *)
Definition httpCreate (body : string) : M World (Z * option Json) :=
  match upstreamCreate o body with
  | Unreachable => throw NetworkError
  | Responded code data => ret (code, data)
  end.

(** [await res.json()]. *)
Definition resJson (data : option Json) : M World Json :=
  match data with
  | Some v => ret v
  | None => throw DecodeError
  end.

(** [await req.text()]. *)
Definition reqText (req : Request) : M World string :=
  match text req with
  | Some body => ret body
  | None => throw ReadError
  end.

(** The status codes a [Response] can be built with. *)
Definition statusInRange (code : Z) : bool := (200 <=? code) && (code <=? 599).

(** [Response.json(data, { status })]: a status outside 200-599 throws. *)
Definition responseJson (data : Json) (code : Z) : M World Response :=
  if statusInRange code
  then ret {| res_status := code; res_body := wire data |}
  else throw RangeError.

(** The [fetch] handler given to [Bun.serve], lines 161-196.  The four
    statements of the proxy route all stand inside its [try]. *)
Definition handle (req : Request) : M World Response :=
  if String.eqb (pathname req) "/health" then ret health
  else if String.eqb (pathname req) "/bounties" && String.eqb (method req) "POST" then
    tryCatch
      (body <- reqText req ;;
       res <- httpCreate body ;;
       data <- resJson (snd res) ;;
       responseJson data (fst res))
      (fun _ => ret proxyFailure)
  else if String.eqb (pathname req) "/poll" && String.eqb (method req) "POST" then
    stats <- poll ;;
    ret {| res_status := 200; res_body := statsJson stats |}
  else ret notFound.

End Program.

(** ** Vocabulary for the statements *)

(** The effects of [fireWebhook]: a request per destination, each followed
    by the line logged for its outcome. *)
Definition deliveries (o : Outside) (p : WebhookPayload) (urls : list string) : list Effect :=
  flat_map
    (fun url =>
       Post url p ::
       match hook o url p with
       | Some code => [LogDelivered p url code]
       | None => [LogWebhookError url NetworkError]
       end)
    urls.

(** The requests of one dispatch: the payload to every destination. *)
Definition dispatch (p : WebhookPayload) (urls : list string) : list (string * WebhookPayload) :=
  map (fun url => (url, p)) urls.

(** The world after one event about [b] has been dispatched from [w]: the
    clock was read once and [fireWebhook] ran; nothing happens without
    destinations. *)
Definition announce (c : Config) (o : Outside) (ev : EventType) (b : Bounty) (w : World) : World :=
  if hasWebhooks c
  then {| disk := disk w; ticks := S (ticks w);
          out := out w ++ deliveries o {| event := ev; bounty := b;
                                          timestamp := clock o (ticks w) |}
                                     (WEBHOOK_URLS c) |}
  else w.

(** What [fetchBounties] returns when it returns. *)
Definition fetched (o : Outside) : option (list Bounty) :=
  match upstream o with
  | Responded code (Some l) => if ok code then Some l else None
  | _ => None
  end.

(** The fetch fails: no connection, a status outside 200-299, or a body
    that does not decode. *)
Definition fetchFails (o : Outside) : Prop :=
  upstream o = Unreachable
  \/ (exists code body, upstream o = Responded code body /\ ok code = false)
  \/ (exists code, upstream o = Responded code None).

(** The state [loadState] returns for a given file. *)
Definition loaded (d : Disk) : State :=
  match d with
  | Stored s => s
  | _ => emptyState
  end.

(** The line [loadState] logs for a file it cannot parse. *)
Definition loadWarning (d : Disk) : list Effect :=
  match d with
  | Garbage => [WarnCorrupt]
  | _ => []
  end.

(** The status stored for [k] in the state file, if any. *)
Definition entry (d : Disk) (k : string) : option string :=
  match d with
  | Stored s => match bounties s with Some m => m !! k | None => None end
  | _ => None
  end.

(** The state record after a loop over [l]: the statuses of the bounties
    that pass the filter, written in list order. *)
Definition recorded (c : Config) (l : list Bounty) (m : gmap string string) : gmap string string :=
  fold_left (fun m b => if matchesFilters c b then setProp m (id b) (status b) else m) l m.

(** Processing the fetched list [l] fails: the loaded state has no
    [bounties] record to index and some bounty of [l] passes the filter. *)
Definition processingFails (c : Config) (w : World) (l : list Bounty) : Prop :=
  bounties (loaded (disk w)) = None
  /\ exists b, In b l /\ matchesFilters c b = true.

(** The local variables of [poll] once the state is loaded. *)
Definition frame (w : World) : Store :=
  {| state := loaded (disk w); created := 0; changed := 0; errors := 0;
     world := {| disk := disk w; ticks := ticks w;
                 out := out w ++ loadWarning (disk w) |} |}.

(** The store the [catch] clause of [poll] leaves: the error is logged
    and counted. *)
Definition failed (e : Exn) (s : Store) : Store :=
  {| state := state s; created := created s; changed := changed s;
     errors := S (errors s);
     world := {| disk := disk (world s); ticks := ticks (world s);
                 out := out (world s) ++ [LogPollError e] |} |}.

(** The store after [saveState] was called and the write refused. *)
Definition attempted (s : Store) : Store :=
  {| state := state s; created := created s; changed := changed s;
     errors := errors s;
     world := {| disk := disk (world s); ticks := ticks (world s);
                 out := out (world s) ++ [Write (state s)] |} |}.

(** The store after [saveState] succeeded. *)
Definition saved (s : Store) : Store :=
  {| state := state s; created := created s; changed := changed s;
     errors := errors s;
     world := {| disk := Stored (state s); ticks := ticks (world s);
                 out := out (world s) ++ [Write (state s)] |} |}.

Definition summary (s : Store) : PollResult :=
  {| r_created := created s; r_changed := changed s; r_errors := errors s |}.

(** Successive poll cycles, one per element of [runs]. *)
Definition polls (c : Config) (runs : list Outside) (w : World) : World :=
  fold_left (fun w o => snd (poll c o w)) runs w.

(** The same outside world with other answers from the webhook
    destinations. *)
Definition withHook (h : string -> WebhookPayload -> option Z) (o : Outside) : Outside :=
  {| upstream := upstream o; upstreamCreate := upstreamCreate o; hook := h;
     writable := writable o; clock := clock o |}.

(** Two stores with the same local variables and the same state file. *)
Definition agree (s1 s2 : Store) : Prop :=
  state s1 = state s2 /\ created s1 = created s2 /\ changed s1 = changed s2
  /\ errors s1 = errors s2 /\ disk (world s1) = disk (world s2).

(** ** The filter as the specification words it *)

(** A bounty tag is present in the filter set, compared without case. *)
Definition tagCondition (c : Config) (b : Bounty) : Prop :=
  FILTER_TAGS c <> [] ->
  exists t f, In t (tags b) /\ In f (FILTER_TAGS c) /\ toLowerCase t = toLowerCase f.

(** [reward / 1e6 >= threshold] when a positive threshold is configured. *)
Definition rewardAtLeast (c : Config) (b : Bounty) : Prop :=
  Num.gt (FILTER_MIN_REWARD c) (Num.ofZ 0) = true ->
  Num.ge (Num.div (Number (reward b)) (Num.ofZ 1000000)) (FILTER_MIN_REWARD c) = true.

(** [reward / 1e6 < threshold] does not hold when a positive threshold is
    configured. *)
Definition rewardNotBelow (c : Config) (b : Bounty) : Prop :=
  Num.gt (FILTER_MIN_REWARD c) (Num.ofZ 0) = true ->
  Num.lt (Num.div (Number (reward b)) (Num.ofZ 1000000)) (FILTER_MIN_REWARD c) = false.

(** ** Configuration defaults as the specification words them *)

Definition unsetOrEmpty (v : option string) : Prop := v = None \/ v = Some "".

(** A value that is set and is not a numeric literal. *)
Definition malformed (v : option string) : Prop :=
  exists s, v = Some s /\ Number s = Num.NaN.

Definition fallsBackToDefaults (e : ProcessEnv) : Prop :=
  (malformed (env_POLL_INTERVAL e) -> POLL_INTERVAL (loadConfig e) = Num.ofZ 60000)
  /\ (malformed (env_FILTER_MIN_REWARD e) -> FILTER_MIN_REWARD (loadConfig e) = Num.ofZ 0)
  /\ (malformed (env_PORT e) -> PORT (loadConfig e) = Num.ofZ 3001).

(** No decimal digit follows the leading white space and sign of [s]. *)
Definition noDigitAtHead (s : string) : bool :=
  match snd (readSign (trimStartL (chars s))) with
  | ch :: _ => match digitOf 10 ch with Some _ => false | None => true end
  | [] => true
  end.

(** ** Sample data *)

Definition hookUrl : string := "https://hooks.example/a".
Definition stamp : string := "2026-02-06T00:00:00.000Z".

Definition sampleBounty (i st : string) (tg : list string) (rw : string) : Bounty :=
  {| id := i; title := "Fix the parser"; description := "";
     tags := tg; reward := rw; rewardFormatted := "";
     status := st; creator := "0xabc"; createdAt := 0; updatedAt := 0;
     claimedBy := None; completedAt := None; requirements := None |}.

Definition sampleConfig (urls tgs : list string) (minReward : Num.t) : Config :=
  {| BOUNTY_API := "https://bounty.owockibot.xyz"; WEBHOOK_URLS := urls;
     POLL_INTERVAL := Num.ofZ 60000; FILTER_TAGS := tgs;
     FILTER_MIN_REWARD := minReward; PORT := Num.ofZ 3001 |}.

(** An outside world whose listing endpoint answers [up], whose webhook
    destinations all answer 200 and whose disk accepts writes iff [w]. *)
Definition sampleOutside (up : HttpResult (list Bounty)) (w : bool) : Outside :=
  {| upstream := up;
     upstreamCreate := fun _ => Unreachable;
     hook := fun _ _ => Some 200;
     writable := w;
     clock := fun _ => stamp |}.

(** An outside world whose create endpoint answers every request with
    [r]. *)
Definition outCreate (r : HttpResult Json) : Outside :=
  {| upstream := Unreachable; upstreamCreate := fun _ => r;
     hook := fun _ _ => Some 200; writable := true; clock := fun _ => stamp |}.

Definition freshWorld (d : Disk) : World := {| disk := d; ticks := 0; out := [] |}.

Definition stored (l : list (string * string)) : Disk :=
  Stored {| bounties := Some (list_to_map l) |}.

Definition envNumeric (interval minReward port : option string) : ProcessEnv :=
  {| env_BOUNTY_API := None; env_WEBHOOK_URLS := None; env_POLL_INTERVAL := interval;
     env_FILTER_TAGS := None; env_FILTER_MIN_REWARD := minReward; env_PORT := port |}.

Definition envMinReward (v : string) : ProcessEnv := envNumeric None (Some v) None.

Definition envRust : ProcessEnv :=
  {| env_BOUNTY_API := None; env_WEBHOOK_URLS := None; env_POLL_INTERVAL := None;
     env_FILTER_TAGS := Some "Rust, ai"; env_FILTER_MIN_REWARD := Some "2.5";
     env_PORT := None |}.

Definition cfg1 := sampleConfig [hookUrl] [] (Num.ofZ 0).
Definition cfgRust := sampleConfig [hookUrl] ["rust"] (Num.ofZ 0).

Definition bOpen := sampleBounty "1" "open" ["rust"] "5000000".
Definition bClaimed := sampleBounty "1" "claimed" ["rust"] "5000000".
Definition bEmpty := sampleBounty "1" "" ["rust"] "5000000".
Definition bSecond := sampleBounty "2" "submitted" ["ai"] "250000".
Definition bDesign := sampleBounty "3" "open" ["Design"] "1000000".
Definition bRusty := sampleBounty "4" "open" ["RUST"] "2500000".
Definition bNoNumber := sampleBounty "7" "open" ["rust"] "abc".
Definition bDone := sampleBounty "9" "completed" [] "1".
Definition bConstructor := sampleBounty "constructor" "completed" [] "1".
Definition bProto := sampleBounty "__proto__" "open" [] "1".
Definition bToString := sampleBounty "1" "toString" ["rust"] "5000000".

Definition out1 : Outside := sampleOutside (Responded 200 (Some [bClaimed])) true.
Definition outEmpty : Outside := sampleOutside (Responded 200 (Some [bEmpty])) true.
Definition outPair : Outside := sampleOutside (Responded 200 (Some [bOpen; bSecond])) true.
Definition outTwins : Outside := sampleOutside (Responded 200 (Some [bOpen; bClaimed])) true.
Definition outMixed : Outside := sampleOutside (Responded 200 (Some [bDesign; bOpen])) true.
Definition outDone : Outside := sampleOutside (Responded 200 (Some [bDone])) true.
Definition outRefused : Outside := sampleOutside (Responded 200 (Some [bOpen])) false.
Definition outConstructor : Outside :=
  sampleOutside (Responded 200 (Some [bConstructor])) true.
Definition outProto : Outside := sampleOutside (Responded 200 (Some [bProto])) true.

Definition postBounties : Request :=
  {| pathname := "/bounties"; method := "POST"; text := Some "{}" |}.

(** ** Vocabulary for the further properties *)

(** The fetched bounties that pass the filter, in list order. *)
Definition passing (c : Config) (l : list Bounty) : list Bounty :=
  List.filter (matchesFilters c) l.

(** The same bounty with another reward text. *)
Definition withReward (r : string) (b : Bounty) : Bounty :=
  {| id := id b; title := title b; description := description b; tags := tags b;
     reward := r; rewardFormatted := rewardFormatted b; status := status b;
     creator := creator b; createdAt := createdAt b; updatedAt := updatedAt b;
     claimedBy := claimedBy b; completedAt := completedAt b;
     requirements := requirements b |}.

(** The same bounty with other tags. *)
Definition withTags (t : list string) (b : Bounty) : Bounty :=
  {| id := id b; title := title b; description := description b; tags := t;
     reward := reward b; rewardFormatted := rewardFormatted b; status := status b;
     creator := creator b; createdAt := createdAt b; updatedAt := updatedAt b;
     claimedBy := claimedBy b; completedAt := completedAt b;
     requirements := requirements b |}.

(** The text has no white space at either end. *)
Definition trimmed (s : string) : Prop := trim s = s.

(** The console lines and requests that are not webhook requests leave
    [posts] alone; the number of effects counts all of them. *)
Definition effects (w : World) : nat := length (out w).

(** Every number in the value is finite. *)
Fixpoint finiteJson (j : Json) : bool :=
  match j with
  | JNum (Num.Fin _) => true
  | JNum _ => false
  | JArr l => forallb finiteJson l
  | JObj fields => forallb (fun kv => finiteJson (snd kv)) fields
  | _ => true
  end.

(** The statuses of responses that carry no body. *)
Definition nullBodyStatus (code : Z) : bool :=
  (code =? 204) || (code =? 205) || (code =? 304).

(** What the proxy route meets when it cannot answer with the upstream's
    response: the request body cannot be read, the upstream cannot be
    reached, its body does not decode as JSON, or its status is one no
    response can be built with. *)
Definition proxyFails (o : Outside) (req : Request) : Prop :=
  text req = None
  \/ exists body,
       text req = Some body
       /\ (upstreamCreate o body = Unreachable
           \/ (exists code, upstreamCreate o body = Responded code None)
           \/ (exists code v, upstreamCreate o body = Responded code (Some v)
                              /\ statusInRange code = false)).

(** The three routes the handler serves besides 404. *)
Definition isHealth (req : Request) : bool := String.eqb (pathname req) "/health".
Definition isProxy (req : Request) : bool :=
  String.eqb (pathname req) "/bounties" && String.eqb (method req) "POST".
Definition isPoll (req : Request) : bool :=
  String.eqb (pathname req) "/poll" && String.eqb (method req) "POST".

Definition outQuiet : Outside := sampleOutside (Responded 200 (Some [bOpen])) true.
Definition outSilent : Outside :=
  {| upstream := Responded 200 (Some [bOpen]); upstreamCreate := fun _ => Unreachable;
     hook := fun _ _ => None; writable := true; clock := fun _ => stamp |}.
Definition cfgNoHooks := sampleConfig [] [] (Num.ofZ 0).
Definition cfgTwoHooks := sampleConfig [hookUrl; "https://hooks.example/b"] [] (Num.ofZ 0).
Definition samplePayload : WebhookPayload :=
  {| event := bounty_claimed; bounty := bClaimed; timestamp := stamp |}.

(** * Properties *)

(** ** Strings and numbers *)

Lemma chars_unchars (l : list ascii) : chars (unchars l) = l.
Proof. apply list_ascii_of_string_of_list_ascii. Qed.

Lemma lowerChar_idem (a : ascii) : lowerChar (lowerChar a) = lowerChar a.
Proof. destruct a as [[] [] [] [] [] [] [] []]; reflexivity. Qed.

Lemma toLowerCase_idem (s : string) : toLowerCase (toLowerCase s) = toLowerCase s.
Proof.
  unfold toLowerCase. rewrite chars_unchars, map_map. f_equal.
  apply map_ext. intros a. apply lowerChar_idem.
Qed.

Lemma includes_In (l : list string) (x : string) :
  includes l x = true <-> In x l.
Proof.
  unfold includes. rewrite existsb_exists. split.
  - intros (y & Hy & E). apply String.eqb_eq in E. subst. exact Hy.
  - intros H. exists x. split; [exact H | apply String.eqb_refl].
Qed.

(** The configured tags are stored in lower case. *)
Lemma FILTER_TAGS_lower (e : ProcessEnv) (f : string) :
  In f (FILTER_TAGS (loadConfig e)) -> toLowerCase f = f.
Proof.
  simpl. intros H. apply filter_In in H as [H _].
  apply in_map_iff in H as (t & <- & _). apply toLowerCase_idem.
Qed.

Lemma length_zero_nil {A} (l : list A) : Nat.eqb (length l) 0 = true <-> l = [].
Proof. destruct l; simpl; split; congruence. Qed.

(** ** Filter policy *)

Section Filter.

Variable c : Config.
Hypothesis lower : forall f, In f (FILTER_TAGS c) -> toLowerCase f = f.

Lemma tags_pass_iff (b : Bounty) :
  negb (Nat.eqb (length (FILTER_TAGS c)) 0)
  && negb (existsb (fun t => includes (FILTER_TAGS c) (toLowerCase t)) (tags b)) = false
  <-> tagCondition c b.
Proof.
  unfold tagCondition. rewrite andb_false_iff, !negb_false_iff, length_zero_nil.
  rewrite existsb_exists. split.
  - intros [E | (t & Ht & Hin)] Hne; [contradiction |].
    apply includes_In in Hin. exists t, (toLowerCase t).
    repeat split; try assumption. symmetry. apply toLowerCase_idem.
  - intros H.
    assert (D : FILTER_TAGS c = [] \/ FILTER_TAGS c <> [])
      by (destruct (FILTER_TAGS c); [left; reflexivity | right; discriminate]).
    destruct D as [D | D]; [left; exact D | right].
    destruct (H D) as (t & f & Ht & Hf & Eq).
    exists t. split; [exact Ht |]. apply includes_In.
    rewrite Eq, (lower f Hf). exact Hf.
Qed.

End Filter.

(** C5 (as the code has it).  With the configuration as loaded from the
    environment, [matchesFilters] accepts a bounty exactly when (1) the tag
    filter is empty or one of the bounty's tags is in it, compared without
    case, and (2) the threshold is not positive or the reward divided by
    1,000,000 is not less than it -- which also holds of a reward that is
    not a number. *)
Theorem matchesFilters_spec (e : ProcessEnv) (b : Bounty) :
  matchesFilters (loadConfig e) b = true
  <-> tagCondition (loadConfig e) b /\ rewardNotBelow (loadConfig e) b.
Proof.
  set (c := loadConfig e).
  pose proof (tags_pass_iff c (FILTER_TAGS_lower e) b) as T.
  unfold matchesFilters, rewardNotBelow. rewrite <- T. clear T.
  destruct (negb (Nat.eqb (length (FILTER_TAGS c)) 0)
            && negb (existsb (fun t => includes (FILTER_TAGS c) (toLowerCase t)) (tags b))).
  - split; [discriminate | intros [? _]; discriminate].
  - destruct (Num.gt (FILTER_MIN_REWARD c) (Num.ofZ 0)); simpl.
    + destruct (Num.lt _ _); split; try tauto; try discriminate.
      intros [_ H]. specialize (H eq_refl). discriminate.
    + split; [intros _; split; [reflexivity | discriminate] | reflexivity].
Qed.

Lemma matchesFilters_spec_witness :
  matchesFilters (loadConfig envRust) bRusty = true.
Proof.
  apply (proj2 (matchesFilters_spec envRust bRusty)). split.
  - intros _. exists "RUST", "rust".
    split; [left; reflexivity |]. split; [vm_compute; left; reflexivity | reflexivity].
  - intros _. reflexivity.
Defined.

(** C5 as stated fails: with a threshold of 5 and no tag filter, a bounty
    whose reward text is not a number passes the filter although its reward
    is not greater than or equal to the threshold. *)
Lemma matchesFilters_nan_reward_passes :
  ~ (matchesFilters (loadConfig (envMinReward "5")) bNoNumber = true
     <-> tagCondition (loadConfig (envMinReward "5")) bNoNumber
         /\ rewardAtLeast (loadConfig (envMinReward "5")) bNoNumber).
Proof.
  intros [H _].
  assert (E : matchesFilters (loadConfig (envMinReward "5")) bNoNumber = true)
    by reflexivity.
  destruct (H E) as [_ R]. specialize (R eq_refl). discriminate R.
Qed.

(** ** Configuration *)

Lemma orDefault_unset (v : option string) (d : string) :
  unsetOrEmpty v -> orDefault v d = d.
Proof. intros [-> | ->]; reflexivity. Qed.

Lemma orDefault_set (s d : string) : s <> "" -> orDefault (Some s) d = s.
Proof.
  intros H. unfold orDefault, truthy.
  destruct (String.eqb s "") eqn:E; [apply String.eqb_eq in E; contradiction | reflexivity].
Qed.

Lemma parseInt10_headless (s : string) : noDigitAtHead s = true -> parseInt10 s = Num.NaN.
Proof.
  unfold noDigitAtHead, parseInt10.
  destruct (readSign (trimStartL (chars s))) as [neg r]. simpl.
  destruct r as [| ch r]; [reflexivity |]. simpl.
  destruct (digitOf 10 ch); [discriminate | reflexivity].
Qed.

(** C8 (as the code has it).  Loading the configuration is a total
    function of the environment.  A numeric setting takes its default when
    its variable is unset or empty; any other text is handed to [parseInt]
    (interval, port) or [parseFloat] (threshold) and the setting is what
    they return, which is [NaN] for the two integer settings when no digit
    stands at the head of the text: the default is not substituted. *)
Theorem numeric_settings_spec (e : ProcessEnv) :
  (unsetOrEmpty (env_POLL_INTERVAL e) -> POLL_INTERVAL (loadConfig e) = Num.ofZ 60000)
  /\ (unsetOrEmpty (env_FILTER_MIN_REWARD e) ->
      FILTER_MIN_REWARD (loadConfig e) = Num.ofZ 0)
  /\ (unsetOrEmpty (env_PORT e) -> PORT (loadConfig e) = Num.ofZ 3001)
  /\ (forall s, env_POLL_INTERVAL e = Some s -> s <> "" ->
        POLL_INTERVAL (loadConfig e) = Num.mul (parseInt10 s) (Num.ofZ 1000)
        /\ (noDigitAtHead s = true -> POLL_INTERVAL (loadConfig e) = Num.NaN))
  /\ (forall s, env_FILTER_MIN_REWARD e = Some s -> s <> "" ->
        FILTER_MIN_REWARD (loadConfig e) = parseFloat s)
  /\ (forall s, env_PORT e = Some s -> s <> "" ->
        PORT (loadConfig e) = parseInt10 s
        /\ (noDigitAtHead s = true -> PORT (loadConfig e) = Num.NaN)).
Proof.
  unfold loadConfig; simpl. repeat split.
  - intros H. rewrite (orDefault_unset _ _ H). reflexivity.
  - intros H. rewrite (orDefault_unset _ _ H). reflexivity.
  - intros H. rewrite (orDefault_unset _ _ H). reflexivity.
  - rewrite H, (orDefault_set _ _ H0). reflexivity.
  - intros N. rewrite H, (orDefault_set _ _ H0), (parseInt10_headless _ N). reflexivity.
  - intros s E N. rewrite E, (orDefault_set _ _ N). reflexivity.
  - rewrite H, (orDefault_set _ _ H0). reflexivity.
  - intros N. rewrite H, (orDefault_set _ _ H0). apply parseInt10_headless, N.
Qed.

Lemma numeric_settings_spec_witness :
  POLL_INTERVAL (loadConfig (envNumeric None (Some "") (Some "abc"))) = Num.ofZ 60000
  /\ FILTER_MIN_REWARD (loadConfig (envNumeric None (Some "") (Some "abc"))) = Num.ofZ 0
  /\ PORT (loadConfig (envNumeric None (Some "") (Some "abc"))) = Num.NaN.
Proof.
  destruct (numeric_settings_spec (envNumeric None (Some "") (Some "abc")))
    as (H1 & H2 & _ & _ & _ & H6).
  split; [apply H1; left; reflexivity |].
  split; [apply H2; right; reflexivity |].
  apply (H6 "abc"); [reflexivity | discriminate | reflexivity].
Defined.

(** C8 as stated fails: the text [abc] is malformed for all three settings
    and none of them takes its default; each becomes [NaN]. *)
Lemma malformed_numeric_not_defaulted :
  ~ fallsBackToDefaults (envNumeric (Some "abc") (Some "abc") (Some "abc")).
Proof.
  intros (H & _). 
  assert (M : malformed (Some "abc")) by (exists "abc"; split; reflexivity).
  specialize (H M). discriminate H.
Qed.

(** ** The monad *)

(** Two names for what one run of a deterministic computation produced. *)
Ltac same x y := assert (x = y) by congruence; subst x.

Lemma posts_app (l1 l2 : list Effect) : posts (l1 ++ l2) = posts l1 ++ posts l2.
Proof. unfold posts. apply flat_map_app. Qed.

Lemma writes_app (l1 l2 : list Effect) : writes (l1 ++ l2) = writes l1 ++ writes l2.
Proof. unfold writes. apply flat_map_app. Qed.

Lemma posts_deliveries (o : Outside) (p : WebhookPayload) (urls : list string) :
  posts (deliveries o p urls) = dispatch p urls.
Proof.
  induction urls as [| u r IH]; [reflexivity |].
  change (deliveries o p (u :: r))
    with ((Post u p :: match hook o u p with
                       | Some code => [LogDelivered p u code]
                       | None => [LogWebhookError u NetworkError]
                       end) ++ deliveries o p r).
  rewrite posts_app, IH. destruct (hook o u p); reflexivity.
Qed.

Lemma writes_deliveries (o : Outside) (p : WebhookPayload) (urls : list string) :
  writes (deliveries o p urls) = [].
Proof.
  induction urls as [| u r IH]; [reflexivity |].
  change (deliveries o p (u :: r))
    with ((Post u p :: match hook o u p with
                       | Some code => [LogDelivered p u code]
                       | None => [LogWebhookError u NetworkError]
                       end) ++ deliveries o p r).
  rewrite writes_app, IH. destruct (hook o u p); reflexivity.
Qed.

Lemma forEach_app {S A} (f : A -> M S unit) (l1 l2 : list A) (s : S) :
  forEach f (l1 ++ l2) s = (forEach f l1 ;; forEach f l2) s.
Proof.
  revert s. induction l1 as [| x r IH]; intros s; simpl.
  - reflexivity.
  - unfold bind. destruct (f x s) as [[[] | e] s']; [| reflexivity].
    rewrite IH. reflexivity.
Qed.

(** ** Webhook dispatch *)

Section Runs.

Context (c : Config) (o : Outside).

Lemma fireWebhook_urls (p : WebhookPayload) (urls : list string) (w : World) :
  forEach
    (fun url =>
       tryCatch
         (code <- httpPost o url p ;; emit (LogDelivered p url code))
         (fun e => emit (LogWebhookError url e)))
    urls w
  = (Ok tt, {| disk := disk w; ticks := ticks w;
               out := out w ++ deliveries o p urls |}).
Proof.
  revert w. induction urls as [| u r IH]; intros w.
  - simpl. unfold ret. destruct w; simpl. rewrite app_nil_r. reflexivity.
  - simpl. unfold bind at 1. unfold tryCatch, httpPost, bind, emit, ret, throw.
    destruct (hook o u p) as [code |]; simpl; rewrite IH; simpl;
      rewrite <- !app_assoc; reflexivity.
Qed.

(** [fireWebhook] never throws, whatever the destinations answer. *)
Lemma fireWebhook_run (p : WebhookPayload) (w : World) :
  fireWebhook c o p w
  = (Ok tt, {| disk := disk w; ticks := ticks w;
               out := out w ++ deliveries o p (WEBHOOK_URLS c) |}).
Proof. apply fireWebhook_urls. Qed.

End Runs.

(** ** Reading and writing the state record *)

Lemma truthy_true (s : string) : truthy s = true <-> s <> "".
Proof.
  unfold truthy. rewrite negb_true_iff. apply String.eqb_neq.
Qed.

Lemma getProp_own (m : gmap string string) (k v : string) :
  m !! k = Some v -> getProp m k = Own v.
Proof. intros L. unfold getProp. rewrite L. reflexivity. Qed.

Lemma getProp_absent (m : gmap string string) (k : string) :
  m !! k = None -> inheritedKey k = false -> getProp m k = Undefined.
Proof. intros L I. unfold getProp. rewrite L, I. reflexivity. Qed.

Lemma getProp_inherited (m : gmap string string) (k : string) :
  m !! k = None -> inheritedKey k = true -> getProp m k = Inherited k.
Proof. intros L I. unfold getProp. rewrite L, I. reflexivity. Qed.

Lemma setProp_own (m : gmap string string) (k v p : string) :
  m !! k = Some p -> setProp m k v = <[k := v]> m.
Proof. intros L. unfold setProp. rewrite L. reflexivity. Qed.

Lemma setProp_plain (m : gmap string string) (k v : string) :
  k <> "__proto__" -> setProp m k v = <[k := v]> m.
Proof.
  intros N. unfold setProp. apply String.eqb_neq in N. rewrite N.
  destruct (m !! k); reflexivity.
Qed.

Lemma inheritedKey_proto (k : string) : inheritedKey k = false -> k <> "__proto__".
Proof. intros I ->. discriminate I. Qed.

(** An assignment that finds neither an own property nor another key
    does nothing. *)
Lemma setProp_swallowed (m : gmap string string) (v : string) :
  m !! "__proto__" = None -> setProp m "__proto__" v = m.
Proof. intros L. unfold setProp. rewrite L. reflexivity. Qed.

Lemma lookup_setProp_ne (m : gmap string string) (k k' v : string) :
  k <> k' -> setProp m k v !! k' = m !! k'.
Proof.
  intros N. unfold setProp.
  destruct (m !! k); [apply lookup_insert_ne, N |].
  destruct (String.eqb k "__proto__"); [reflexivity | apply lookup_insert_ne, N].
Qed.

Lemma lookup_setProp_eq (m : gmap string string) (k v : string) :
  k <> "__proto__" \/ is_Some (m !! k) -> setProp m k v !! k = Some v.
Proof.
  intros [N | [p L]].
  - rewrite setProp_plain by exact N. apply lookup_insert_eq.
  - rewrite (setProp_own m k v p L). apply lookup_insert_eq.
Qed.

(** A falsy read is followed by a write that takes effect. *)
Lemma falsy_setProp (m : gmap string string) (k v : string) :
  falsy (getProp m k) = true -> setProp m k v = <[k := v]> m.
Proof.
  unfold getProp. destruct (m !! k) as [p |] eqn:L.
  - intros _. apply (setProp_own m k v p L).
  - destruct (inheritedKey k) eqn:I; [discriminate |].
    intros _. apply setProp_plain, inheritedKey_proto, I.
Qed.

(** The four ways the loop body can find the entry of a bounty. *)
Lemma slot_cases (m : gmap string string) (k s : string) :
  falsy (getProp m k) = true
  \/ (m !! k = Some s /\ s <> "")
  \/ (exists p, m !! k = Some p /\ p <> "" /\ p <> s)
  \/ (m !! k = None /\ inheritedKey k = true).
Proof.
  unfold getProp. destruct (m !! k) as [p |].
  - simpl. destruct (truthy p) eqn:T; [| left; reflexivity].
    apply truthy_true in T. right.
    destruct (String.eqb p s) eqn:Q.
    + apply String.eqb_eq in Q. subst p. left. auto.
    + apply String.eqb_neq in Q. right; left. eauto.
  - destruct (inheritedKey k); [right; right; right; auto | left; reflexivity].
Qed.

(** ** One iteration of the loop *)

Section Step.

Context (c : Config) (o : Outside).

Lemma processBounty_skip (b : Bounty) (s : Store) :
  matchesFilters c b = false -> processBounty c o b s = (Ok tt, s).
Proof. intros H. unfold processBounty. rewrite H. reflexivity. Qed.

Lemma processBounty_unreadable (b : Bounty) (s : Store) :
  matchesFilters c b = true -> bounties (state s) = None ->
  processBounty c o b s = (Throw TypeError, s).
Proof.
  intros H N. unfold processBounty. rewrite H. simpl.
  unfold bind at 1. unfold getStatus. rewrite N. reflexivity.
Qed.

Lemma dispatch_run (ev : EventType) (b : Bounty) (s : Store) :
  (if hasWebhooks c
   then ts <- lift (now o) ;;
        lift (fireWebhook c o {| event := ev; bounty := b; timestamp := ts |})
   else ret tt) s
  = (Ok tt, {| state := state s; created := created s; changed := changed s;
               errors := errors s; world := announce c o ev b (world s) |}).
Proof.
  unfold announce. destruct (hasWebhooks c).
  - unfold bind, lift, now. simpl. rewrite fireWebhook_run. reflexivity.
  - unfold ret. destruct s; reflexivity.
Qed.

(** The first branch: the read is falsy. *)
Lemma processBounty_new (b : Bounty) (s : Store) (m : gmap string string) :
  matchesFilters c b = true -> bounties (state s) = Some m ->
  falsy (getProp m (id b)) = true ->
  processBounty c o b s
  = (Ok tt, {| state := {| bounties := Some (<[id b := status b]> m) |};
               created := S (created s); changed := changed s;
               errors := errors s;
               world := announce c o bounty_created b (world s) |}).
Proof.
  intros H E F. unfold processBounty. rewrite H. simpl.
  unfold bind at 1. unfold getStatus. rewrite E, F.
  unfold bind at 1. unfold setStatus at 1. rewrite E.
  rewrite (falsy_setProp m _ (status b) F).
  unfold bind at 1. rewrite dispatch_run. reflexivity.
Qed.

(** The second branch: the read is truthy and is not the fetched
    status. *)
Lemma processBounty_differs (b : Bounty) (s : Store) (m : gmap string string) :
  matchesFilters c b = true -> bounties (state s) = Some m ->
  falsy (getProp m (id b)) = false ->
  differs (getProp m (id b)) (status b) = true ->
  processBounty c o b s
  = (Ok tt, {| state := {| bounties := Some (setProp m (id b) (status b)) |};
               created := created s; changed := S (changed s);
               errors := errors s;
               world := match STATUS_TO_EVENT (status b) with
                        | Some ev => announce c o ev b (world s)
                        | None => world s
                        end |}).
Proof.
  intros H E F D. unfold processBounty. rewrite H. simpl.
  unfold bind at 1. unfold getStatus. rewrite E, F, D. unfold bind at 1.
  destruct (STATUS_TO_EVENT (status b)) as [ev |].
  - rewrite dispatch_run. unfold bind, setStatus, incrChanged. simpl. rewrite E. reflexivity.
  - unfold ret, bind, setStatus, incrChanged. simpl. rewrite E. reflexivity.
Qed.

Lemma processBounty_changed (b : Bounty) (s : Store) (m : gmap string string) (p : string) :
  matchesFilters c b = true -> bounties (state s) = Some m ->
  m !! id b = Some p -> p <> "" -> p <> status b ->
  processBounty c o b s
  = (Ok tt, {| state := {| bounties := Some (<[id b := status b]> m) |};
               created := created s; changed := S (changed s);
               errors := errors s;
               world := match STATUS_TO_EVENT (status b) with
                        | Some ev => announce c o ev b (world s)
                        | None => world s
                        end |}).
Proof.
  intros H E L T D. rewrite <- (setProp_own m _ (status b) p L).
  apply (processBounty_differs b s m H E); rewrite (getProp_own m _ p L); simpl.
  - apply negb_false_iff, truthy_true, T.
  - apply negb_true_iff, String.eqb_neq, D.
Qed.

(** No own entry, but the identifier names an inherited member: the read
    finds the member and the second branch is taken. *)
Lemma processBounty_inherited (b : Bounty) (s : Store) (m : gmap string string) :
  matchesFilters c b = true -> bounties (state s) = Some m ->
  m !! id b = None -> inheritedKey (id b) = true ->
  processBounty c o b s
  = (Ok tt, {| state := {| bounties := Some (setProp m (id b) (status b)) |};
               created := created s; changed := S (changed s);
               errors := errors s;
               world := match STATUS_TO_EVENT (status b) with
                        | Some ev => announce c o ev b (world s)
                        | None => world s
                        end |}).
Proof.
  intros H E L I.
  apply (processBounty_differs b s m H E); rewrite (getProp_inherited m _ L I); reflexivity.
Qed.

Lemma processBounty_same (b : Bounty) (s : Store) (m : gmap string string) :
  matchesFilters c b = true -> bounties (state s) = Some m ->
  m !! id b = Some (status b) -> status b <> "" ->
  processBounty c o b s = (Ok tt, s).
Proof.
  intros H E L T. unfold processBounty. rewrite H. simpl.
  unfold bind at 1. unfold getStatus. rewrite E, (getProp_own m _ _ L). simpl.
  apply truthy_true in T. rewrite T, String.eqb_refl. reflexivity.
Qed.

End Step.

(** ** The world after a dispatch *)

Section Announce.

Context (c : Config) (o : Outside).

Lemma hasWebhooks_false : hasWebhooks c = false -> WEBHOOK_URLS c = [].
Proof.
  unfold hasWebhooks. rewrite negb_false_iff. apply length_zero_nil.
Qed.

Lemma disk_announce (ev : EventType) (b : Bounty) (w : World) :
  disk (announce c o ev b w) = disk w.
Proof. unfold announce. destruct (hasWebhooks c); reflexivity. Qed.

Lemma writes_announce (ev : EventType) (b : Bounty) (w : World) :
  writes (out (announce c o ev b w)) = writes (out w).
Proof.
  unfold announce. destruct (hasWebhooks c); [| reflexivity].
  simpl. rewrite writes_app, writes_deliveries. apply app_nil_r.
Qed.

(** Every destination is sent the payload; without destinations nothing
    is sent. *)
Lemma posts_announce (ev : EventType) (b : Bounty) (w : World) :
  posts (out (announce c o ev b w))
  = posts (out w)
    ++ dispatch {| event := ev; bounty := b; timestamp := clock o (ticks w) |}
                (WEBHOOK_URLS c).
Proof.
  unfold announce. destruct (hasWebhooks c) eqn:H.
  - simpl. rewrite posts_app, posts_deliveries. reflexivity.
  - rewrite (hasWebhooks_false H). simpl. symmetry. apply app_nil_r.
Qed.

Lemma dispatch_bounty (p : WebhookPayload) (urls : list string) (u : string) (q : WebhookPayload) :
  In (u, q) (dispatch p urls) -> q = p.
Proof.
  unfold dispatch. intros H. apply in_map_iff in H as (x & E & _). congruence.
Qed.

End Announce.

(** ** The loop over the fetched bounties *)

Section Loop.

Context (c : Config) (o : Outside).

(** What one iteration does to a readable state, whatever the verdict. *)
Lemma processBounty_readable (b : Bounty) (s : Store) (m : gmap string string) :
  matchesFilters c b = true -> bounties (state s) = Some m ->
  exists s',
    processBounty c o b s = (Ok tt, s')
    /\ bounties (state s') = Some (setProp m (id b) (status b))
    /\ errors s' = errors s
    /\ disk (world s') = disk (world s)
    /\ writes (out (world s')) = writes (out (world s))
    /\ exists sent,
         posts (out (world s')) = posts (out (world s)) ++ sent
         /\ forall u p, In (u, p) sent -> bounty p = b.
Proof.
  intros H E.
  assert (Second : forall w',
    w' = match STATUS_TO_EVENT (status b) with
         | Some ev => announce c o ev b (world s)
         | None => world s
         end ->
    disk w' = disk (world s)
    /\ writes (out w') = writes (out (world s))
    /\ exists sent,
         posts (out w') = posts (out (world s)) ++ sent
         /\ forall u p, In (u, p) sent -> bounty p = b).
  { intros w' ->. destruct (STATUS_TO_EVENT (status b)) as [ev |].
    - rewrite disk_announce, writes_announce, posts_announce.
      repeat split. eexists. split; [reflexivity |].
      intros u q Hin. apply dispatch_bounty in Hin. subst q. reflexivity.
    - repeat split. exists []. split; [symmetry; apply app_nil_r | intros ? ? []]. }
  destruct (slot_cases m (id b) (status b)) as [F | [[L T] | [(p & L & T & Q) | [L I]]]].
  - eexists. split; [apply (processBounty_new c o b s m H E F) |]. simpl.
    rewrite disk_announce, writes_announce, posts_announce, (falsy_setProp m _ _ F).
    repeat split; try reflexivity. eexists. split; [reflexivity |].
    intros u p Hin. apply dispatch_bounty in Hin. subst p. reflexivity.
  - exists s. split; [apply (processBounty_same c o b s m H E L T) |].
    rewrite (setProp_own m _ _ _ L), (insert_id m _ _ L). repeat split; try assumption.
    exists []. split; [symmetry; apply app_nil_r | intros ? ? []].
  - eexists. split; [apply (processBounty_changed c o b s m p H E L T Q) |]. simpl.
    rewrite (setProp_own m _ _ _ L). repeat split; apply (Second _ eq_refl).
  - eexists. split; [apply (processBounty_inherited c o b s m H E L I) |]. simpl.
    repeat split; apply (Second _ eq_refl).
Qed.

Lemma recorded_cons (b : Bounty) (l : list Bounty) (m : gmap string string) :
  recorded c (b :: l) m
  = recorded c l (if matchesFilters c b then setProp m (id b) (status b) else m).
Proof. reflexivity. Qed.

(** With a readable state the loop runs to its end. *)
Lemma loop_readable (l : list Bounty) (s : Store) (m : gmap string string) :
  bounties (state s) = Some m ->
  exists s',
    forEach (processBounty c o) l s = (Ok tt, s')
    /\ bounties (state s') = Some (recorded c l m)
    /\ errors s' = errors s
    /\ disk (world s') = disk (world s)
    /\ writes (out (world s')) = writes (out (world s))
    /\ exists sent,
         posts (out (world s')) = posts (out (world s)) ++ sent
         /\ forall u p, In (u, p) sent ->
              In (bounty p) l /\ matchesFilters c (bounty p) = true.
Proof.
  revert s m. induction l as [| b l IH]; intros s m E.
  - exists s. simpl. repeat split; try assumption.
    exists []. split; [symmetry; apply app_nil_r | intros ? ? []].
  - rewrite recorded_cons. simpl forEach. unfold bind.
    destruct (matchesFilters c b) eqn:H.
    + destruct (processBounty_readable b s m H E)
        as (s1 & R & E1 & Er1 & D1 & W1 & sent1 & P1 & B1).
      rewrite R. destruct (IH s1 _ E1) as (s2 & R2 & E2 & Er2 & D2 & W2 & sent2 & P2 & B2).
      exists s2. rewrite R2. repeat split; try congruence.
      exists (sent1 ++ sent2). split; [rewrite P2, P1, app_assoc; reflexivity |].
      intros u p Hin. apply in_app_or in Hin as [Hin | Hin].
      * rewrite (B1 u p Hin). split; [left; reflexivity | exact H].
      * destruct (B2 u p Hin). split; [right; assumption | assumption].
    + rewrite (processBounty_skip c o b s H).
      destruct (IH s m E) as (s2 & R2 & E2 & Er2 & D2 & W2 & sent2 & P2 & B2).
      exists s2. rewrite R2. repeat split; try assumption.
      exists sent2. split; [assumption |].
      intros u p Hin. destruct (B2 u p Hin). split; [right; assumption | assumption].
Qed.

(** Without a [bounties] record the first bounty that passes the filter
    throws; the store is as it was. *)
Lemma loop_unreadable (l : list Bounty) (s : Store) :
  bounties (state s) = None ->
  forEach (processBounty c o) l s
  = (if existsb (matchesFilters c) l then Throw TypeError else Ok tt, s).
Proof.
  intros N. induction l as [| b l IH]; [reflexivity |].
  simpl. unfold bind. destruct (matchesFilters c b) eqn:H.
  - rewrite (processBounty_unreadable c o b s H N). reflexivity.
  - rewrite (processBounty_skip c o b s H). exact IH.
Qed.

(** When the state already holds the status of every bounty that passes
    the filter, and none of these is empty, the loop changes nothing. *)
Lemma loop_quiet (l : list Bounty) (s : Store) (m : gmap string string) :
  bounties (state s) = Some m ->
  (forall b, In b l -> matchesFilters c b = true ->
             m !! id b = Some (status b) /\ status b <> "") ->
  forEach (processBounty c o) l s = (Ok tt, s).
Proof.
  intros E. induction l as [| b l IH]; intros K; [reflexivity |].
  simpl. unfold bind. destruct (matchesFilters c b) eqn:H.
  - destruct (K b (or_introl eq_refl) H) as [L T].
    rewrite (processBounty_same c o b s m H E L T).
    apply IH. intros b' Hin. apply K. right. exact Hin.
  - rewrite (processBounty_skip c o b s H).
    apply IH. intros b' Hin. apply K. right. exact Hin.
Qed.

End Loop.

(** ** The recorded statuses *)

Section Recorded.

Variable c : Config.

(** Identifiers of no bounty that passes the filter keep their entry. *)
Lemma recorded_frame (l : list Bounty) (m : gmap string string) (k : string) :
  (forall b, In b l -> matchesFilters c b = true -> id b <> k) ->
  recorded c l m !! k = m !! k.
Proof.
  revert m. induction l as [| a l IH]; intros m K; [reflexivity |].
  rewrite recorded_cons, IH by (intros b Hin; apply K; right; exact Hin).
  destruct (matchesFilters c a) eqn:H; [| reflexivity].
  apply lookup_setProp_ne. apply K; [left; reflexivity | exact H].
Qed.

Lemma recorded_keeps (l : list Bounty) (m : gmap string string) (k v : string) :
  m !! k = Some v ->
  (forall b, In b l -> matchesFilters c b = true -> id b = k -> status b = v) ->
  recorded c l m !! k = Some v.
Proof.
  revert m. induction l as [| a l IH]; intros m L K; [exact L |].
  rewrite recorded_cons. apply IH; [| intros b Hin; apply K; right; exact Hin].
  destruct (matchesFilters c a) eqn:H; [| exact L].
  destruct (decide (id a = k)) as [E | N].
  - rewrite <- (K a (or_introl eq_refl) H E), <- E.
    apply lookup_setProp_eq. right. rewrite E, L. eauto.
  - rewrite lookup_setProp_ne by exact N. exact L.
Qed.

(** When bounties that share an identifier agree on their status, the
    record ends up holding the status of each bounty that passes, provided
    the write for it takes effect. *)
Lemma recorded_holds (l : list Bounty) (m : gmap string string) :
  (forall b b', In b l -> In b' l -> matchesFilters c b = true ->
                matchesFilters c b' = true -> id b = id b' -> status b = status b') ->
  forall b, In b l -> matchesFilters c b = true -> id b <> "__proto__" ->
            recorded c l m !! id b = Some (status b).
Proof.
  revert m. induction l as [| a l IH]; intros m K b Hin H P; [destruct Hin |].
  rewrite recorded_cons. destruct Hin as [-> | Hin].
  - rewrite H. apply recorded_keeps; [apply lookup_setProp_eq; left; exact P |].
    intros b' Hin' H' E. apply K; [right; exact Hin' | left; reflexivity | | | ]; assumption.
  - apply IH; [| exact Hin | exact H | exact P].
    intros x y Hx Hy. apply K; right; assumption.
Qed.

End Recorded.

(** ** One poll cycle *)

Section Cycle.

Context (c : Config) (o : Outside).

(** [loadState] never throws. *)
Lemma loadState_run (w : World) :
  loadState w
  = (Ok (loaded (disk w)),
     {| disk := disk w; ticks := ticks w; out := out w ++ loadWarning (disk w) |}).
Proof.
  unfold loadState, bind, existsSync, tryCatch, readState, emit, ret, loaded, loadWarning.
  destruct w as [d t tr]. simpl. destruct d; simpl; rewrite ?app_nil_r; reflexivity.
Qed.

Lemma fetchBounties_ok (l : list Bounty) (w : World) :
  fetched o = Some l -> fetchBounties o w = (Ok l, w).
Proof.
  unfold fetched, fetchBounties. destruct (upstream o) as [| code [l' |]]; try discriminate.
  destruct (ok code); [| discriminate]. intros [= ->]. reflexivity.
Qed.

Lemma fetchBounties_fails (w : World) :
  fetched o = None -> exists e, fetchBounties o w = (Throw e, w).
Proof.
  unfold fetched, fetchBounties. destruct (upstream o) as [| code [l' |]].
  - intros _. exists NetworkError. reflexivity.
  - destruct (ok code); [discriminate |]. intros _. exists (ApiError code). reflexivity.
  - intros _. destruct (ok code); [exists DecodeError | exists (ApiError code)]; reflexivity.
Qed.

Lemma pollBody_fetch_fails (s : Store) :
  fetched o = None ->
  exists e, pollBody c o s = (Ok (summary (failed e s)), failed e s).
Proof.
  intros F. destruct (fetchBounties_fails (world s) F) as [e E].
  exists e. unfold pollBody, bind, tryCatch, lift. rewrite E. reflexivity.
Qed.

Lemma pollBody_fetched (l : list Bounty) (s : Store) :
  fetched o = Some l ->
  pollBody c o s
  = match forEach (processBounty c o) l s with
    | (Ok _, s1) =>
        if writable o then (Ok (summary (saved s1)), saved s1)
        else (Ok (summary (failed WriteError (attempted s1))),
              failed WriteError (attempted s1))
    | (Throw e, s1) => (Ok (summary (failed e s1)), failed e s1)
    end.
Proof.
  intros F. unfold pollBody, bind at 1, tryCatch, bind at 1, lift at 1.
  rewrite (fetchBounties_ok l _ F).
  replace {| state := state s; created := created s; changed := changed s;
             errors := errors s; world := world s |} with s by (destruct s; reflexivity).
  unfold bind at 1. destruct (forEach (processBounty c o) l s) as [[[] | e] s1].
  - unfold lift, saveState, bind, emit. simpl. destruct (writable o); reflexivity.
  - reflexivity.
Qed.

End Cycle.

Section Poll.

Context (c : Config) (o : Outside).

Lemma poll_unfold (w : World) :
  poll c o w = (fst (pollBody c o (frame w)), world (snd (pollBody c o (frame w)))).
Proof.
  unfold poll, bind. rewrite loadState_run. unfold inFrame, frame.
  destruct (pollBody c o _) as [r s]. reflexivity.
Qed.

Lemma fetchFails_iff : fetchFails o <-> fetched o = None.
Proof.
  unfold fetchFails, fetched. destruct (upstream o) as [| code [l |]].
  - split; [reflexivity | left; reflexivity].
  - split.
    + intros [H | [(k & b & [= -> <-] & H) | (k & [=])]]; [discriminate | rewrite H; reflexivity].
    + destruct (ok code) eqn:E; [discriminate |]. intros _. right; left. eauto.
  - split; [reflexivity |]. intros _. right; right. eauto.
Qed.

(** The three ways a cycle can end. *)
Lemma poll_run (w : World) :
  exists s,
    poll c o w = (Ok (summary s), world s)
    /\ ((fetched o = None /\ exists e, s = failed e (frame w))
        \/ (exists l e s1, fetched o = Some l
             /\ forEach (processBounty c o) l (frame w) = (Throw e, s1)
             /\ s = failed e s1)
        \/ (exists l s1, fetched o = Some l
             /\ forEach (processBounty c o) l (frame w) = (Ok tt, s1)
             /\ (writable o = true /\ s = saved s1
                 \/ writable o = false /\ s = failed WriteError (attempted s1)))).
Proof.
  rewrite poll_unfold. destruct (fetched o) as [l |] eqn:F.
  - rewrite (pollBody_fetched c o l _ F).
    destruct (forEach (processBounty c o) l (frame w)) as [[[] | e] s1] eqn:R.
    + destruct (writable o) eqn:W.
      * exists (saved s1). split; [reflexivity |]. right; right. exists l, s1. auto.
      * exists (failed WriteError (attempted s1)). split; [reflexivity |].
        right; right. exists l, s1. auto.
    + exists (failed e s1). split; [reflexivity |]. right; left. exists l, e, s1. auto.
  - destruct (pollBody_fetch_fails c o (frame w) F) as [e E]. rewrite E.
    exists (failed e (frame w)). split; [reflexivity |]. left. eauto.
Qed.

End Poll.

(** * The claims *)

Lemma posts_loadWarning (d : Disk) : posts (loadWarning d) = [].
Proof. destruct d; reflexivity. Qed.

Lemma writes_loadWarning (d : Disk) : writes (loadWarning d) = [].
Proof. destruct d; reflexivity. Qed.

(** C4.  When the fetch fails -- no connection, a status outside 200-299
    or an undecodable body -- [poll] returns [{created: 0, changed: 0,
    errors: 1}], sends no webhook request, does not call [saveState] and
    leaves the state file as it was. *)
Theorem poll_fetch_failure (c : Config) (o : Outside) (w : World) :
  fetchFails o ->
  exists w',
    poll c o w = (Ok {| r_created := 0; r_changed := 0; r_errors := 1 |}, w')
    /\ disk w' = disk w
    /\ posts (out w') = posts (out w)
    /\ writes (out w') = writes (out w).
Proof.
  intros F. apply fetchFails_iff in F.
  destruct (poll_run c o w) as (s & R & [[_ [e ->]] | [(l & ? & ? & F' & _) | (l & ? & F' & _)]]);
    try congruence.
  eexists. split; [exact R |]. simpl.
  rewrite !posts_app, !writes_app, posts_loadWarning, writes_loadWarning. simpl.
  rewrite !app_nil_r. auto.
Qed.

Lemma poll_fetch_failure_witness :
  exists w',
    poll cfg1 (sampleOutside (Responded 500 (Some [bClaimed])) true)
         (freshWorld (stored [("1", "open")]))
    = (Ok {| r_created := 0; r_changed := 0; r_errors := 1 |}, w')
    /\ disk w' = stored [("1", "open")]
    /\ posts (out w') = []
    /\ writes (out w') = [].
Proof.
  apply (poll_fetch_failure cfg1 (sampleOutside (Responded 500 (Some [bClaimed])) true)
           (freshWorld (stored [("1", "open")]))).
  right; left. exists 500, (Some [bClaimed]). split; reflexivity.
Defined.

Section FirstSight.

Context (c : Config) (o : Outside).

Lemma step_created_mono (b : Bounty) (s : Store) :
  (created s <= created (snd (processBounty c o b s)))%nat.
Proof.
  destruct (matchesFilters c b) eqn:H.
  2: { rewrite processBounty_skip by exact H. apply Nat.le_refl. }
  destruct (bounties (state s)) as [m |] eqn:E.
  2: { rewrite processBounty_unreadable by assumption. apply Nat.le_refl. }
  destruct (slot_cases m (id b) (status b)) as [F | [[L T] | [(p & L & T & Q) | [L I]]]].
  - rewrite (processBounty_new c o b s m H E F). simpl. apply Nat.le_succ_diag_r.
  - rewrite (processBounty_same c o b s m H E L T). apply Nat.le_refl.
  - rewrite (processBounty_changed c o b s m p H E L T Q). apply Nat.le_refl.
  - rewrite (processBounty_inherited c o b s m H E L I). apply Nat.le_refl.
Qed.

Lemma loop_created_mono (l : list Bounty) (s : Store) :
  (created s <= created (snd (forEach (processBounty c o) l s)))%nat.
Proof.
  revert s. induction l as [| b l IH]; intros s; [apply Nat.le_refl |].
  simpl. unfold bind. pose proof (step_created_mono b s) as Hb.
  destruct (processBounty c o b s) as [[[] | e] s1]; simpl in Hb; [| exact Hb].
  etransitivity; [exact Hb | apply IH].
Qed.

(** The result and the requests of a cycle whose loop ran to its end. *)
Lemma poll_after_loop (w : World) (l : list Bounty) (s1 : Store) :
  fetched o = Some l ->
  forEach (processBounty c o) l (frame w) = (Ok tt, s1) ->
  exists r w',
    poll c o w = (Ok r, w')
    /\ r_created r = created s1 /\ r_changed r = changed s1
    /\ posts (out w') = posts (out (world s1)).
Proof.
  intros F R.
  destruct (poll_run c o w)
    as (s & P & [[F' _] | [(l' & e & s2 & F' & R' & ->) | (l' & s2 & F' & R' & Hs)]]);
    try congruence.
  same l' l. same s2 s1. eexists _, _. split; [exact P |].
  destruct Hs as [[_ ->] | [_ ->]]; simpl; rewrite !posts_app; simpl;
    rewrite ?app_nil_r; auto.
Qed.

(** A bounty seen for the first time in the middle of a fetched list. *)
Lemma poll_first_sight
    (w : World) (l1 l2 : list Bounty) (b : Bounty) (m : gmap string string) :
  matchesFilters c b = true ->
  fetched o = Some (l1 ++ b :: l2) ->
  bounties (loaded (disk w)) = Some m ->
  m !! id b = None ->
  inheritedKey (id b) = false ->
  (forall b', In b' l1 -> matchesFilters c b' = true -> id b' <> id b) ->
  exists r w',
    poll c o w = (Ok r, w')
    /\ (1 <= r_created r)%nat
    /\ forall u, In u (WEBHOOK_URLS c) ->
         exists ts, In (u, {| event := bounty_created; bounty := b; timestamp := ts |})
                       (posts (out w')).
Proof.
  intros H F E L I K.
  destruct (loop_readable c o l1 (frame w) m E) as (sa & Ra & Ea & _).
  assert (La : recorded c l1 m !! id b = None) by (rewrite recorded_frame; assumption).
  pose proof (processBounty_new c o b sa _ H Ea) as Rb.
  rewrite (getProp_absent _ _ La I) in Rb. specialize (Rb eq_refl).
  set (sb := {| state := {| bounties := Some (<[id b := status b]> (recorded c l1 m)) |};
                created := S (created sa); changed := changed sa; errors := errors sa;
                world := announce c o bounty_created b (world sa) |}) in Rb.
  destruct (loop_readable c o l2 sb _ eq_refl) as (sc & Rc & _ & _ & _ & _ & sent & Pc & _).
  assert (R : forEach (processBounty c o) (l1 ++ b :: l2) (frame w) = (Ok tt, sc)).
  { rewrite forEach_app. unfold bind at 1. rewrite Ra. simpl. unfold bind.
    rewrite Rb. exact Rc. }
  destruct (poll_after_loop w _ sc F R) as (r & w' & P & Cr & _ & Po).
  exists r, w'. split; [exact P |]. split.
  - rewrite Cr. pose proof (loop_created_mono l2 sb) as Mo. rewrite Rc in Mo.
    simpl in Mo. lia.
  - intros u Hu. exists (clock o (ticks (world sa))).
    rewrite Po, Pc. apply in_or_app. left.
    unfold sb. simpl. rewrite posts_announce. apply in_or_app. right.
    unfold dispatch. apply in_map_iff. exists u. auto.
Qed.

End FirstSight.

(** The classification of a bounty seen for the first time, for
    identifiers that name no member of [Object.prototype].  The loop body
    records the bounty's status, sends a [bounty.created] payload carrying
    the bounty to every configured destination (to none when none is
    configured) and increments [created] alone, whatever the status.  A
    cycle that meets the bounty in its fetched list, with no entry loaded
    for it and no earlier bounty of the list bearing its identifier, counts
    at least one creation and sends [bounty.created] for it to every
    destination. *)
Lemma new_bounty_is_created (c : Config) (o : Outside) (b : Bounty) :
  matchesFilters c b = true ->
  inheritedKey (id b) = false ->
  (forall (s : Store) (m : gmap string string),
      bounties (state s) = Some m ->
      m !! id b = None ->
      exists s',
        processBounty c o b s = (Ok tt, s')
        /\ bounties (state s') = Some (<[id b := status b]> m)
        /\ created s' = S (created s)
        /\ changed s' = changed s
        /\ errors s' = errors s
        /\ posts (out (world s'))
           = posts (out (world s))
             ++ dispatch {| event := bounty_created; bounty := b;
                            timestamp := clock o (ticks (world s)) |}
                         (WEBHOOK_URLS c))
  /\ (forall (w : World) (l1 l2 : list Bounty) (m : gmap string string),
        fetched o = Some (l1 ++ b :: l2) ->
        bounties (loaded (disk w)) = Some m ->
        m !! id b = None ->
        (forall b', In b' l1 -> matchesFilters c b' = true -> id b' <> id b) ->
        exists r w',
          poll c o w = (Ok r, w')
          /\ (1 <= r_created r)%nat
          /\ forall u, In u (WEBHOOK_URLS c) ->
               exists ts, In (u, {| event := bounty_created; bounty := b;
                                    timestamp := ts |})
                             (posts (out w'))).
Proof.
  intros H I. split.
  - intros s m E L. eexists. split.
    + apply (processBounty_new c o b s m H E). rewrite (getProp_absent m _ L I). reflexivity.
    + simpl. rewrite posts_announce. auto.
  - intros w l1 l2 m F E L K. apply (poll_first_sight c o w l1 l2 b m); assumption.
Qed.

(** A bounty first seen as [completed]: the cycle reports a creation and
    sends [bounty.created]. *)
Example poll_first_seen_completed :
  fst (poll cfg1 outDone (freshWorld NoFile))
  = Ok {| r_created := 1; r_changed := 0; r_errors := 0 |}
  /\ posts (out (snd (poll cfg1 outDone (freshWorld NoFile))))
     = [(hookUrl, {| event := bounty_created; bounty := bDone; timestamp := stamp |})].
Proof. split; vm_compute; reflexivity. Qed.

(** C2, where the code departs from it.  A bounty passes the filter, the
    state record has no entry for its identifier, and the identifier names
    a member of [Object.prototype] ([constructor], [toString], ...).  The
    read [state.bounties[bounty.id]] finds the inherited member, which is
    truthy and differs from every status, so the loop body takes the bounty
    for one whose status has changed: [created] stays, [changed] is
    incremented, and what is sent is the event of the status table -- for
    a bounty first seen as [completed], [bounty.completed] -- and not
    [bounty.created].  A cycle that fetches just this bounty returns
    [created = 0] and [changed = 1]. *)
Theorem inherited_identifier_taken_for_changed (c : Config) (o : Outside) (b : Bounty) :
  matchesFilters c b = true ->
  inheritedKey (id b) = true ->
  (forall (s : Store) (m : gmap string string),
      bounties (state s) = Some m ->
      m !! id b = None ->
      exists s',
        processBounty c o b s = (Ok tt, s')
        /\ bounties (state s') = Some (setProp m (id b) (status b))
        /\ created s' = created s
        /\ changed s' = S (changed s)
        /\ errors s' = errors s
        /\ posts (out (world s'))
           = posts (out (world s))
             ++ match STATUS_TO_EVENT (status b) with
                | Some ev => dispatch {| event := ev; bounty := b;
                                         timestamp := clock o (ticks (world s)) |}
                                      (WEBHOOK_URLS c)
                | None => []
                end)
  /\ (forall (w : World) (m : gmap string string),
        fetched o = Some [b] ->
        bounties (loaded (disk w)) = Some m ->
        m !! id b = None ->
        exists r w',
          poll c o w = (Ok r, w')
          /\ r_created r = 0%nat
          /\ r_changed r = 1%nat
          /\ posts (out w')
             = posts (out w)
               ++ match STATUS_TO_EVENT (status b) with
                  | Some ev => dispatch {| event := ev; bounty := b;
                                           timestamp := clock o (ticks w) |}
                                        (WEBHOOK_URLS c)
                  | None => []
                  end).
Proof.
  intros H I.
  assert (Step : forall (s : Store) (m : gmap string string),
    bounties (state s) = Some m -> m !! id b = None ->
    exists s',
      processBounty c o b s = (Ok tt, s')
      /\ bounties (state s') = Some (setProp m (id b) (status b))
      /\ created s' = created s
      /\ changed s' = S (changed s)
      /\ errors s' = errors s
      /\ posts (out (world s'))
         = posts (out (world s))
           ++ match STATUS_TO_EVENT (status b) with
              | Some ev => dispatch {| event := ev; bounty := b;
                                       timestamp := clock o (ticks (world s)) |}
                                    (WEBHOOK_URLS c)
              | None => []
              end).
  { intros s m E L. eexists. split.
    - apply (processBounty_inherited c o b s m H E L I).
    - simpl. destruct (STATUS_TO_EVENT (status b)).
      + rewrite posts_announce. auto.
      + rewrite app_nil_r. auto. }
  split; [exact Step |].
  intros w m F E L.
  destruct (Step (frame w) m E L) as (s1 & R & _ & Cr & Ch & _ & Po).
  assert (Loop : forEach (processBounty c o) [b] (frame w) = (Ok tt, s1)).
  { simpl. unfold bind. rewrite R. reflexivity. }
  destruct (poll_after_loop c o w [b] s1 F Loop) as (r & w' & P & Cr' & Ch' & Po').
  exists r, w'. split; [exact P |].
  rewrite Cr', Ch', Po', Cr, Ch, Po. simpl.
  rewrite posts_app, posts_loadWarning, app_nil_r. auto.
Qed.

Lemma inherited_identifier_taken_for_changed_witness :
  exists r w',
    poll cfg1 outConstructor (freshWorld NoFile) = (Ok r, w')
    /\ r_created r = 0%nat
    /\ r_changed r = 1%nat
    /\ posts (out w')
       = [(hookUrl, {| event := bounty_completed; bounty := bConstructor;
                       timestamp := stamp |})].
Proof.
  apply (proj2 (inherited_identifier_taken_for_changed cfg1 outConstructor bConstructor
                  eq_refl eq_refl)
           (freshWorld NoFile) ∅); reflexivity.
Defined.

(** X4.  The loop body on a bounty that passes the filter and whose stored
    status is not empty and differs from the fetched one: what the lookup
    in the status table gives for the new status, if anything, goes to
    every destination -- the event of one of the five statuses, but also
    the inherited member for a status such as [toString], in a payload
    without an event name; the stored status is replaced and [changed]
    alone is incremented. *)
Lemma changed_status_processing
    (c : Config) (o : Outside) (b : Bounty) (s : Store) (m : gmap string string)
    (p : string) :
  matchesFilters c b = true ->
  bounties (state s) = Some m ->
  m !! id b = Some p -> p <> "" -> p <> status b ->
  exists s',
    processBounty c o b s = (Ok tt, s')
    /\ bounties (state s') = Some (<[id b := status b]> m)
    /\ created s' = created s
    /\ changed s' = S (changed s)
    /\ errors s' = errors s
    /\ posts (out (world s'))
       = posts (out (world s))
         ++ match STATUS_TO_EVENT (status b) with
            | Some ev => dispatch {| event := ev; bounty := b;
                                     timestamp := clock o (ticks (world s)) |}
                                  (WEBHOOK_URLS c)
            | None => []
            end.
Proof.
  intros H E L T D. eexists. split.
  - apply (processBounty_changed c o b s m p H E L T D).
  - simpl. destruct (STATUS_TO_EVENT (status b)).
    + rewrite posts_announce. auto.
    + rewrite app_nil_r. auto.
Qed.

(** C3, where the code departs from it.  The state record holds the
    empty status for the identifier of a bounty that passes the filter and
    is fetched with a non-empty status: the identifier is present and the
    status differs, yet the loop body takes the bounty for a new one.  It
    increments [created], leaves [changed] alone and sends
    [bounty.created], whatever event the table gives for the new status. *)
Theorem stored_empty_status_taken_for_new
    (c : Config) (o : Outside) (b : Bounty) (s : Store) (m : gmap string string) :
  matchesFilters c b = true ->
  bounties (state s) = Some m ->
  m !! id b = Some "" ->
  status b <> "" ->
  exists s',
    processBounty c o b s = (Ok tt, s')
    /\ bounties (state s') = Some (<[id b := status b]> m)
    /\ created s' = S (created s)
    /\ changed s' = changed s
    /\ posts (out (world s'))
       = posts (out (world s))
         ++ dispatch {| event := bounty_created; bounty := b;
                        timestamp := clock o (ticks (world s)) |}
                     (WEBHOOK_URLS c).
Proof.
  intros H E L _. eexists. split.
  - apply (processBounty_new c o b s m H E). rewrite (getProp_own m _ _ L). reflexivity.
  - simpl. rewrite posts_announce. auto.
Qed.

Lemma stored_empty_status_taken_for_new_witness :
  exists s',
    processBounty cfg1 out1 bClaimed (frame (freshWorld (stored [("1", "")])))
    = (Ok tt, s')
    /\ bounties (state s') = Some (<["1" := "claimed"]> (list_to_map [("1", "")]))
    /\ created s' = 1%nat
    /\ changed s' = 0%nat
    /\ posts (out (world s'))
       = [(hookUrl, {| event := bounty_created; bounty := bClaimed; timestamp := stamp |})].
Proof.
  apply (stored_empty_status_taken_for_new cfg1 out1 bClaimed
           (frame (freshWorld (stored [("1", "")]))) (list_to_map [("1", "")]));
    [reflexivity | reflexivity | vm_compute; reflexivity | discriminate].
Defined.

(** The same input through a whole cycle: [poll] reports one creation and
    no change. *)
Example poll_stored_empty_status :
  fst (poll cfg1 out1 (freshWorld (stored [("1", "")])))
  = Ok {| r_created := 1; r_changed := 0; r_errors := 0 |}
  /\ posts (out (snd (poll cfg1 out1 (freshWorld (stored [("1", "")])))))
     = [(hookUrl, {| event := bounty_created; bounty := bClaimed; timestamp := stamp |})].
Proof. split; vm_compute; reflexivity. Qed.

(** ** Bounties with an empty status *)





(** ** Two consecutive cycles *)

Section Twice.

Context (c : Config).

(** The counters [poll] returns are those the loop leaves. *)
Lemma poll_counts (o : Outside) (w : World) (l : list Bounty) (r : Res unit) (s1 : Store) :
  fetched o = Some l ->
  forEach (processBounty c o) l (frame w) = (r, s1) ->
  exists res w',
    poll c o w = (Ok res, w')
    /\ r_created res = created s1 /\ r_changed res = changed s1.
Proof.
  intros F R.
  destruct (poll_run c o w)
    as (s & P & [[F' _] | [(l' & e & s2 & F' & R' & ->) | (l' & s2 & F' & R' & Hs)]]);
    try congruence.
  - same l' l. same s2 s1.
    eexists _, _. split; [exact P |]. auto.
  - same l' l. same s2 s1.
    eexists _, _. split; [exact P |]. destruct Hs as [[_ ->] | [_ ->]]; auto.
Qed.

Lemma poll_quiet (o : Outside) (w : World) (l : list Bounty) (r : Res unit) :
  fetched o = Some l ->
  forEach (processBounty c o) l (frame w) = (r, frame w) ->
  exists res w',
    poll c o w = (Ok res, w') /\ r_created res = 0%nat /\ r_changed res = 0%nat.
Proof. intros F R. apply (poll_counts o w l r (frame w) F R). Qed.

End Twice.

(** C1 (as the code has it).  Let the fetched list be such that the
    bounties passing the filter have non-empty statuses, agree on their
    status whenever they share an identifier, and do not bear the
    identifier [__proto__].  If a cycle fetches this list and saves its
    state, the next cycle fetching the same list returns [created = 0] and
    [changed = 0], whatever the state file held before the first cycle. *)
Theorem second_poll_quiet (c : Config) (o1 o2 : Outside) (l : list Bounty) (w : World) :
  fetched o1 = Some l -> fetched o2 = Some l -> writable o1 = true ->
  (forall b, In b l -> matchesFilters c b = true ->
             status b <> "" /\ id b <> "__proto__") ->
  (forall b b', In b l -> In b' l -> matchesFilters c b = true ->
                matchesFilters c b' = true -> id b = id b' -> status b = status b') ->
  exists r1 w1 r2 w2,
    poll c o1 w = (Ok r1, w1)
    /\ poll c o2 w1 = (Ok r2, w2)
    /\ r_created r2 = 0%nat /\ r_changed r2 = 0%nat.
Proof.
  intros F1 F2 W T K.
  destruct (bounties (loaded (disk w))) as [m |] eqn:E.
  - destruct (loop_readable c o1 l (frame w) m E) as (s1 & R & E1 & _).
    destruct (poll_run c o1 w)
      as (s & P & [[F' _] | [(l' & e & s2 & F' & R' & _) | (l' & s2 & F' & R' & Hs)]]);
      try congruence.
    same l' l. same s2 s1.
    destruct Hs as [[_ ->] | [W' _]]; [| congruence].
    assert (Q : forEach (processBounty c o2) l (frame (world (saved s1)))
                = (Ok tt, frame (world (saved s1)))).
    { apply (loop_quiet c o2 l _ (recorded c l m)); [exact E1 |].
      intros b Hin H. destruct (T b Hin H) as [Ne Np].
      split; [apply recorded_holds; assumption | exact Ne]. }
    destruct (poll_quiet c o2 _ l _ F2 Q) as (r2 & w2 & P2 & C2 & G2).
    exists (summary (saved s1)), (world (saved s1)), r2, w2. auto.
  - pose proof (loop_unreadable c o1 l (frame w) E) as R.
    destruct (poll_run c o1 w)
      as (s & P & [[F' _] | [(l' & e & s2 & F' & R' & ->) | (l' & s2 & F' & R' & Hs)]]);
      try congruence.
    + same l' l.
      same s2 (frame w).
      assert (E2 : bounties (state (frame (world (failed e (frame w))))) = None) by exact E.
      pose proof (loop_unreadable c o2 l _ E2) as R2.
      destruct (poll_quiet c o2 _ l _ F2 R2) as (r2 & w2 & P2 & C2 & G2).
      eexists _, _, r2, w2. split; [exact P |]. auto.
    + same l' l.
      same s2 (frame w).
      destruct Hs as [[_ ->] | [W' _]]; [| congruence].
      assert (E2 : bounties (state (frame (world (saved (frame w))))) = None) by exact E.
      pose proof (loop_unreadable c o2 l _ E2) as R2.
      destruct (poll_quiet c o2 _ l _ F2 R2) as (r2 & w2 & P2 & C2 & G2).
      eexists _, _, r2, w2. split; [exact P |]. auto.
Qed.

Lemma second_poll_quiet_witness :
  exists r1 w1 r2 w2,
    poll cfg1 outPair (freshWorld (stored [("1", "claimed")])) = (Ok r1, w1)
    /\ poll cfg1 outPair w1 = (Ok r2, w2)
    /\ r_created r2 = 0%nat /\ r_changed r2 = 0%nat.
Proof.
  apply (second_poll_quiet cfg1 outPair outPair [bOpen; bSecond]
           (freshWorld (stored [("1", "claimed")]))); try reflexivity.
  - intros b [<- | [<- | []]] _; split; discriminate.
  - intros b b' [<- | [<- | []]] [<- | [<- | []]] _ _; try reflexivity; discriminate.
Defined.

(** C1 as stated fails: the fetched list carries bounty 1 twice, as
    [open] and as [claimed].  Each cycle overwrites the first status with
    the second, so the second cycle over the same list reports two
    changes. *)
Lemma second_poll_not_quiet_on_twins :
  fetched outTwins = Some [bOpen; bClaimed]
  /\ fst (poll cfg1 outTwins (freshWorld NoFile))
     = Ok {| r_created := 1; r_changed := 1; r_errors := 0 |}
  /\ fst (poll cfg1 outTwins (snd (poll cfg1 outTwins (freshWorld NoFile))))
     = Ok {| r_created := 0; r_changed := 2; r_errors := 0 |}.
Proof. repeat split; vm_compute; reflexivity. Qed.

(** The same failure through the empty status: the second cycle creates
    the bounty again. *)
Lemma second_poll_not_quiet_on_empty_status :
  fst (poll cfg1 outEmpty (freshWorld NoFile))
  = Ok {| r_created := 1; r_changed := 0; r_errors := 0 |}
  /\ fst (poll cfg1 outEmpty (snd (poll cfg1 outEmpty (freshWorld NoFile))))
     = Ok {| r_created := 1; r_changed := 0; r_errors := 0 |}.
Proof. split; vm_compute; reflexivity. Qed.

(** And through the identifier [__proto__]: the write of the first cycle
    is swallowed, no entry is saved, and every cycle reports a change. *)
Lemma second_poll_not_quiet_on_proto :
  fst (poll cfg1 outProto (freshWorld NoFile))
  = Ok {| r_created := 0; r_changed := 1; r_errors := 0 |}
  /\ disk (snd (poll cfg1 outProto (freshWorld NoFile))) = Stored emptyState
  /\ fst (poll cfg1 outProto (snd (poll cfg1 outProto (freshWorld NoFile))))
     = Ok {| r_created := 0; r_changed := 1; r_errors := 0 |}.
Proof. repeat split; vm_compute; reflexivity. Qed.

(** ** What a cycle leaves on disk and sends *)

Section Footprint.

Context (c : Config).

(** The loop, whether or not the state is readable. *)
Lemma loop_facts (o : Outside) (l : list Bounty) (s : Store) :
  exists r s1,
    forEach (processBounty c o) l s = (r, s1)
    /\ bounties (state s1) = option_map (recorded c l) (bounties (state s))
    /\ errors s1 = errors s
    /\ disk (world s1) = disk (world s)
    /\ writes (out (world s1)) = writes (out (world s))
    /\ exists sent,
         posts (out (world s1)) = posts (out (world s)) ++ sent
         /\ forall u p, In (u, p) sent ->
              In (bounty p) l /\ matchesFilters c (bounty p) = true.
Proof.
  destruct (bounties (state s)) as [m |] eqn:E.
  - destruct (loop_readable c o l s m E) as (s1 & R & E1 & rest).
    exists (Ok tt), s1. auto.
  - eexists _, s. split; [apply (loop_unreadable c o l s E) |].
    rewrite E. repeat split.
    exists []. split; [symmetry; apply app_nil_r | intros ? ? []].
Qed.

Lemma entry_loaded (d : Disk) (k : string) :
  entry d k = match bounties (loaded d) with Some m => m !! k | None => None end.
Proof. destruct d; reflexivity. Qed.

Lemma entry_recorded (o : Outside) (l : list Bounty) (w : World) (s1 : Store) (k : string) :
  bounties (state s1) = option_map (recorded c l) (bounties (state (frame w))) ->
  (forall b, In b l -> matchesFilters c b = true -> id b <> k) ->
  entry (Stored (state s1)) k = entry (disk w) k.
Proof.
  intros E K. rewrite entry_loaded with (d := disk w). simpl. rewrite E. simpl.
  destruct (bounties (loaded (disk w))) as [m |]; simpl; [| reflexivity].
  apply recorded_frame, K.
Qed.

(** A cycle leaves alone the entry of every identifier that belongs to no
    fetched bounty passing the filter. *)
Lemma poll_entry_frame (o : Outside) (w : World) (k : string) :
  (forall l b, fetched o = Some l -> In b l -> matchesFilters c b = true -> id b <> k) ->
  entry (disk (snd (poll c o w))) k = entry (disk w) k.
Proof.
  intros K.
  destruct (poll_run c o w)
    as (s & P & [[_ [e ->]] | [(l & e & s1 & F & R & ->) | (l & s1 & F & R & Hs)]]);
    rewrite P; simpl; try reflexivity.
  - destruct (loop_facts o l (frame w)) as (r' & s1' & R' & _ & _ & D & _).
    same s1' s1. rewrite D. reflexivity.
  - destruct (loop_facts o l (frame w)) as (r' & s1' & R' & E & _ & D & _).
    same s1' s1.
    destruct Hs as [[_ ->] | [_ ->]]; simpl.
    + apply (entry_recorded o l w s1 k E). intros b. apply (K l b F).
    + rewrite D. reflexivity.
Qed.

(** Every request a cycle sends carries a fetched bounty that passes the
    filter. *)
Lemma poll_posts (o : Outside) (w : World) (u : string) (p : WebhookPayload) :
  In (u, p) (posts (out (snd (poll c o w)))) ->
  In (u, p) (posts (out w))
  \/ (matchesFilters c (bounty p) = true
      /\ exists l, fetched o = Some l /\ In (bounty p) l).
Proof.
  assert (Fr : posts (out (world (frame w))) = posts (out w)).
  { simpl. rewrite posts_app, posts_loadWarning. apply app_nil_r. }
  destruct (poll_run c o w)
    as (s & P & [[_ [e ->]] | [(l & e & s1 & F & R & ->) | (l & s1 & F & R & Hs)]]);
    rewrite P; simpl snd.
  - simpl. rewrite !posts_app, posts_loadWarning. simpl. rewrite !app_nil_r. auto.
  - destruct (loop_facts o l (frame w)) as (r' & s1' & R' & _ & _ & _ & _ & sent & Ps & Bs).
    same s1' s1.
    simpl. rewrite posts_app, Ps, Fr. simpl. rewrite app_nil_r.
    intros Hin. apply in_app_or in Hin as [Hin | Hin]; [left; exact Hin | right].
    destruct (Bs u p Hin). eauto.
  - destruct (loop_facts o l (frame w)) as (r' & s1' & R' & _ & _ & _ & _ & sent & Ps & Bs).
    same s1' s1.
    assert (Q : posts (out (world s)) = posts (out w) ++ sent).
    { destruct Hs as [[_ ->] | [_ ->]]; simpl; rewrite !posts_app, Ps, Fr; simpl;
        rewrite !app_nil_r; reflexivity. }
    rewrite Q. intros Hin. apply in_app_or in Hin as [Hin | Hin]; [left; exact Hin | right].
    destruct (Bs u p Hin). eauto.
Qed.

Lemma polls_entry_frame (runs : list Outside) (w : World) (k : string) :
  (forall o l b, In o runs -> fetched o = Some l -> In b l ->
                 matchesFilters c b = true -> id b <> k) ->
  entry (disk (polls c runs w)) k = entry (disk w) k.
Proof.
  revert w. induction runs as [| o runs IH]; intros w K; [reflexivity |].
  simpl. rewrite IH by (intros o' l b Hin; apply K; right; exact Hin).
  apply poll_entry_frame. intros l b. apply K. left. reflexivity.
Qed.

Lemma polls_posts (runs : list Outside) (w : World) (u : string) (p : WebhookPayload) :
  In (u, p) (posts (out (polls c runs w))) ->
  In (u, p) (posts (out w))
  \/ (matchesFilters c (bounty p) = true
      /\ exists o l, In o runs /\ fetched o = Some l /\ In (bounty p) l).
Proof.
  revert w. induction runs as [| o runs IH]; intros w Hin; [left; exact Hin |].
  simpl in Hin. destruct (IH _ Hin) as [H | (H & o' & l & Ho & F & Hl)].
  - destruct (poll_posts o w u p H) as [H' | (H' & l & F & Hl)]; [left; exact H' | right].
    split; [exact H' |]. exists o, l. split; [left; reflexivity | auto].
  - right. split; [exact H |]. exists o', l. split; [right; exact Ho | auto].
Qed.

End Footprint.

(** C6.  The loop body of [poll] leaves the whole store as it was on a
    bounty that fails the filter, also on a state it could not read without
    throwing: no read, no write, no request.  Hence, across any number of
    cycles, the entry of an identifier is what it was unless a fetched
    bounty passing the filter bears that identifier, and every request
    sent carries a fetched bounty that passes the filter. *)
Theorem filtered_out_untouched (c : Config) :
  (forall (o : Outside) (b : Bounty) (s : Store),
      matchesFilters c b = false -> processBounty c o b s = (Ok tt, s))
  /\ (forall (runs : list Outside) (w : World) (k : string),
        (forall o l b, In o runs -> fetched o = Some l -> In b l ->
                       matchesFilters c b = true -> id b <> k) ->
        entry (disk (polls c runs w)) k = entry (disk w) k)
  /\ (forall (runs : list Outside) (w : World) (u : string) (p : WebhookPayload),
        In (u, p) (posts (out (polls c runs w))) ->
        In (u, p) (posts (out w))
        \/ (matchesFilters c (bounty p) = true
            /\ exists o l, In o runs /\ fetched o = Some l /\ In (bounty p) l)).
Proof.
  split; [intros o b s; apply processBounty_skip |].
  split; [apply polls_entry_frame | apply polls_posts].
Qed.

Lemma filtered_out_untouched_witness :
  processBounty cfgRust outMixed bDesign (frame (freshWorld NoFile))
  = (Ok tt, frame (freshWorld NoFile))
  /\ entry (disk (polls cfgRust [outMixed; outMixed] (freshWorld NoFile))) "3" = None.
Proof.
  destruct (filtered_out_untouched cfgRust) as (H1 & H2 & _). split.
  - apply H1. reflexivity.
  - apply (H2 [outMixed; outMixed] (freshWorld NoFile) "3").
    intros o l b [<- | [<- | []]] [= <-] [<- | [<- | []]] M; discriminate.
Defined.

(** ** Webhook outcomes do not reach the counters *)

Section Independence.

Context (c : Config) (o1 o2 : Outside).

Lemma step_agree (b : Bounty) (s1 s2 : Store) :
  agree s1 s2 ->
  fst (processBounty c o1 b s1) = fst (processBounty c o2 b s2)
  /\ agree (snd (processBounty c o1 b s1)) (snd (processBounty c o2 b s2)).
Proof.
  intros A. pose proof A as (St & Cr & Ch & Er & Dk).
  destruct (matchesFilters c b) eqn:H.
  2: { rewrite !processBounty_skip by exact H. split; [reflexivity | exact A]. }
  destruct (bounties (state s1)) as [m |] eqn:E1.
  2: { rewrite !processBounty_unreadable by congruence. split; [reflexivity | exact A]. }
  assert (E2 : bounties (state s2) = Some m) by congruence.
  destruct (slot_cases m (id b) (status b)) as [F | [[L T] | [(p & L & T & Q) | [L I]]]].
  - rewrite (processBounty_new c o1 b s1 m H E1 F), (processBounty_new c o2 b s2 m H E2 F).
    split; [reflexivity |]. unfold agree; simpl. rewrite !disk_announce. auto.
  - rewrite (processBounty_same c o1 b s1 m H E1 L T), (processBounty_same c o2 b s2 m H E2 L T).
    split; [reflexivity | exact A].
  - rewrite (processBounty_changed c o1 b s1 m p H E1 L T Q),
            (processBounty_changed c o2 b s2 m p H E2 L T Q).
    split; [reflexivity |]. unfold agree; simpl.
    destruct (STATUS_TO_EVENT (status b)); rewrite ?disk_announce; auto.
  - rewrite (processBounty_inherited c o1 b s1 m H E1 L I),
            (processBounty_inherited c o2 b s2 m H E2 L I).
    split; [reflexivity |]. unfold agree; simpl.
    destruct (STATUS_TO_EVENT (status b)); rewrite ?disk_announce; auto.
Qed.

Lemma loop_agree (l : list Bounty) (s1 s2 : Store) :
  agree s1 s2 ->
  fst (forEach (processBounty c o1) l s1) = fst (forEach (processBounty c o2) l s2)
  /\ agree (snd (forEach (processBounty c o1) l s1))
            (snd (forEach (processBounty c o2) l s2)).
Proof.
  revert s1 s2. induction l as [| b l IH]; intros s1 s2 A.
  - split; [reflexivity | exact A].
  - simpl. unfold bind. destruct (step_agree b s1 s2 A) as [R A'].
    destruct (processBounty c o1 b s1) as [r1 t1], (processBounty c o2 b s2) as [r2 t2].
    simpl in R, A'. subst r2. destruct r1 as [[] | e].
    + apply IH, A'.
    + split; [reflexivity | exact A'].
Qed.

Lemma poll_agree (w : World) :
  upstream o1 = upstream o2 -> writable o1 = writable o2 ->
  fst (poll c o1 w) = fst (poll c o2 w)
  /\ disk (snd (poll c o1 w)) = disk (snd (poll c o2 w)).
Proof.
  intros U W. rewrite !poll_unfold. simpl fst. simpl snd.
  assert (F : fetched o1 = fetched o2) by (unfold fetched; rewrite U; reflexivity).
  destruct (fetched o2) as [l |] eqn:F2.
  - rewrite (pollBody_fetched c o1 l _ F), (pollBody_fetched c o2 l _ F2).
    assert (A0 : agree (frame w) (frame w)) by (unfold agree; auto).
    destruct (loop_agree l (frame w) (frame w) A0) as [R A].
    destruct (forEach (processBounty c o1) l (frame w)) as [r1 t1],
             (forEach (processBounty c o2) l (frame w)) as [r2 t2].
    simpl in R, A. subst r2. destruct A as (St & Cr & Ch & Er & Dk).
    rewrite <- W. destruct r1 as [[] | e]; [destruct (writable o1) |];
      unfold summary; simpl; rewrite ?St, ?Cr, ?Ch, ?Er, ?Dk; auto.
  - destruct (pollBody_fetch_fails c o1 (frame w) F) as [e1 ->].
    destruct (pollBody_fetch_fails c o2 (frame w) F2) as [e2 ->].
    split; reflexivity.
Qed.

End Independence.

(** ** A cycle always returns *)

Section Totality.

Context (c : Config) (o : Outside).

Lemma loop_throws (w : World) (l : list Bounty) (e : Exn) (s1 : Store) :
  forEach (processBounty c o) l (frame w) = (Throw e, s1) ->
  processingFails c w l /\ s1 = frame w.
Proof.
  intros R. destruct (bounties (loaded (disk w))) as [m |] eqn:E.
  - destruct (loop_readable c o l (frame w) m E) as (s' & R' & _). congruence.
  - rewrite (loop_unreadable c o l (frame w) E) in R.
    destruct (existsb (matchesFilters c) l) eqn:X; [| discriminate].
    apply existsb_exists in X. split; [split; assumption | congruence].
Qed.

Lemma loop_returns (w : World) (l : list Bounty) (s1 : Store) :
  forEach (processBounty c o) l (frame w) = (Ok tt, s1) ->
  ~ processingFails c w l.
Proof.
  intros R [E X]. rewrite (loop_unreadable c o l (frame w) E) in R.
  apply existsb_exists in X. rewrite X in R. discriminate.
Qed.

Lemma frame_posts (w : World) : posts (out (world (frame w))) = posts (out w).
Proof. simpl. rewrite posts_app, posts_loadWarning. apply app_nil_r. Qed.

Lemma frame_writes (w : World) : writes (out (world (frame w))) = writes (out w).
Proof. simpl. rewrite writes_app, writes_loadWarning. apply app_nil_r. Qed.

Lemma poll_total (w : World) :
  exists r w',
    poll c o w = (Ok r, w')
    /\ (r_errors r = 0%nat \/ r_errors r = 1%nat)
    /\ (r_errors r = 1%nat
        <-> fetchFails o
            \/ exists l, fetched o = Some l
                         /\ (processingFails c w l \/ writable o = false))
    /\ (fetchFails o \/ (exists l, fetched o = Some l /\ processingFails c w l) ->
        r = {| r_created := 0; r_changed := 0; r_errors := 1 |}
        /\ disk w' = disk w
        /\ posts (out w') = posts (out w)
        /\ writes (out w') = writes (out w))
    /\ (forall l, fetched o = Some l -> ~ processingFails c w l ->
        exists st, writes (out w') = writes (out w) ++ [st]).
Proof.
  destruct (poll_run c o w)
    as (s & P & [[F [e ->]] | [(l & e & s1 & F & R & ->) | (l & s1 & F & R & Hs)]]).
  - eexists _, _. split; [exact P |]. simpl.
    rewrite !posts_app, !writes_app, posts_loadWarning, writes_loadWarning. simpl.
    rewrite !app_nil_r. split; [auto |]. split; [| split].
    + split; [intros _; left; apply fetchFails_iff, F | reflexivity].
    + auto.
    + intros l F'. congruence.
  - destruct (loop_throws w l e s1 R) as [X ->].
    eexists _, _. split; [exact P |]. simpl.
    rewrite !posts_app, !writes_app, posts_loadWarning, writes_loadWarning. simpl.
    rewrite !app_nil_r. split; [auto |]. split; [| split].
    + split; [intros _; right; exists l; auto | reflexivity].
    + auto.
    + intros l' F' N. same l' l. contradiction.
  - pose proof (loop_returns w l s1 R) as N.
    destruct (loop_facts c o l (frame w)) as (r' & s1' & R' & _ & Er & D & Wr & _).
    same s1' s1. simpl in Er.
    exists (summary s), (world s). split; [exact P |].
    assert (NF : ~ fetchFails o) by (rewrite fetchFails_iff; congruence).
    destruct Hs as [[W ->] | [W ->]]; simpl; rewrite Er.
    + split; [auto |]. split; [| split].
      * split; [discriminate |].
        intros [FF | (l' & F' & [X | W'])]; [contradiction | | congruence].
        same l' l. contradiction.
      * intros [FF | (l' & F' & X)]; [contradiction |].
        same l' l. contradiction.
      * intros l' _ _. exists (state s1).
        rewrite writes_app, Wr, frame_writes. reflexivity.
    + split; [auto |]. split; [| split].
      * split; [intros _; right; exists l; auto | reflexivity].
      * intros [FF | (l' & F' & X)]; [contradiction |].
        same l' l. contradiction.
      * intros l' _ _. exists (state s1).
        rewrite !writes_app, Wr, frame_writes. simpl. rewrite app_nil_r. reflexivity.
Qed.

End Totality.

(** C10.  [poll] returns a result for every configuration, outside world
    and state file -- it never throws -- and the [errors] field of the
    result is 0 or 1.  It is 1 exactly when the fetch fails, processing a
    bounty throws, or the state cannot be written.  A failure of the fetch
    or of the processing ends the cycle on the spot: nothing is sent
    after it and [saveState] is not called; when neither fails [saveState]
    is called exactly once.  The answers of the webhook destinations change
    neither the result nor the state file. *)
Theorem poll_always_returns (c : Config) (o : Outside) (w : World) :
  exists r w',
    poll c o w = (Ok r, w')
    /\ (r_errors r = 0%nat \/ r_errors r = 1%nat)
    /\ (r_errors r = 1%nat
        <-> fetchFails o
            \/ exists l, fetched o = Some l
                         /\ (processingFails c w l \/ writable o = false))
    /\ (fetchFails o \/ (exists l, fetched o = Some l /\ processingFails c w l) ->
        r = {| r_created := 0; r_changed := 0; r_errors := 1 |}
        /\ disk w' = disk w
        /\ posts (out w') = posts (out w)
        /\ writes (out w') = writes (out w))
    /\ (forall l, fetched o = Some l -> ~ processingFails c w l ->
        exists st, writes (out w') = writes (out w) ++ [st])
    /\ (forall h,
          fst (poll c (withHook h o) w) = Ok r
          /\ disk (snd (poll c (withHook h o) w)) = disk w').
Proof.
  destruct (poll_total c o w) as (r & w' & P & H1 & H2 & H3 & H4).
  exists r, w'. repeat (split; [assumption |]).
  intros h. destruct (poll_agree c (withHook h o) o w eq_refl eq_refl) as [A B].
  rewrite A, B, P. split; reflexivity.
Qed.

Lemma poll_always_returns_witness :
  exists r w',
    poll cfg1 outRefused (freshWorld NoFile) = (Ok r, w')
    /\ r_errors r = 1%nat
    /\ fst (poll cfg1 (withHook (fun _ _ => None) outRefused) (freshWorld NoFile)) = Ok r.
Proof.
  destruct (poll_always_returns cfg1 outRefused (freshWorld NoFile))
    as (r & w' & P & _ & E & _ & _ & I).
  exists r, w'. split; [exact P |]. split.
  - apply E. right. exists [bOpen]. split; [reflexivity | right; reflexivity].
  - apply I.
Defined.

(** A refused write after a new bounty: the counters keep what the loop
    counted and the failure is counted once. *)
Example poll_refused_write :
  fst (poll cfg1 outRefused (freshWorld NoFile))
  = Ok {| r_created := 1; r_changed := 0; r_errors := 1 |}
  /\ disk (snd (poll cfg1 outRefused (freshWorld NoFile))) = NoFile.
Proof. split; vm_compute; reflexivity. Qed.

(** A state file without a [bounties] record: the first bounty that
    passes the filter throws and nothing is sent or written. *)
Example poll_unreadable_state :
  poll cfg1 out1 (freshWorld (Stored {| bounties := None |}))
  = (Ok {| r_created := 0; r_changed := 0; r_errors := 1 |},
     {| disk := Stored {| bounties := None |}; ticks := 0;
        out := [LogPollError TypeError] |}).
Proof. reflexivity. Qed.

(** ** The create proxy *)

Lemma wire_finite : forall j, finiteJson j = true -> wire j = j.
Proof.
  fix IH 1. intros [| b | [| n | q] | s | l | fs]; simpl;
    try reflexivity; try discriminate.
  - intros H. f_equal. revert l H. fix IHl 1. intros [| x r] H; [reflexivity |].
    simpl in *. apply andb_true_iff in H as [Hx Hr].
    rewrite (IH x Hx), (IHl r Hr). reflexivity.
  - intros H. f_equal. revert fs H. fix IHl 1. intros [| [k x] r] H; [reflexivity |].
    simpl in *. apply andb_true_iff in H as [Hx Hr].
    rewrite (IH x Hx), (IHl r Hr). reflexivity.
Qed.

Lemma handle_proxy (c : Config) (o : Outside) (req : Request) (w : World) :
  pathname req = "/bounties" -> method req = "POST" ->
  handle c o req w
  = (Ok match text req with
        | Some body =>
            match upstreamCreate o body with
            | Responded code (Some v) =>
                if statusInRange code
                then {| res_status := code; res_body := wire v |}
                else proxyFailure
            | _ => proxyFailure
            end
        | None => proxyFailure
        end, w).
Proof.
  intros P Me. unfold handle. rewrite P, Me. simpl.
  unfold tryCatch, bind, reqText, httpCreate, resJson, responseJson, ret, throw.
  destruct (text req) as [body |]; [| reflexivity].
  destruct (upstreamCreate o body) as [| code [v |]]; try reflexivity.
  simpl. destruct (statusInRange code); reflexivity.
Qed.

Lemma statusInRange_true (code : Z) : statusInRange code = true <-> 200 <= code <= 599.
Proof. unfold statusInRange. lia. Qed.

(** C7 (as the code has it).  On [POST /bounties] the handler never
    throws and touches neither the state file nor the webhooks.  When the
    upstream answers with a status between 200 and 599 (other than 204,
    205 and 304, which carry no body) and a body that decodes as JSON, the
    response carries the upstream's status code and that JSON value as
    [Response.json] writes it: verbatim when all its numbers are finite.
    The response is the fixed 502
    [{"error": "Failed to proxy bounty creation"}] when the request body
    cannot be read, when the upstream cannot be reached, when its body does
    not decode as JSON and when its status lies outside 200-599; that
    response arises in no other way, unless the upstream itself answers
    with it or answers with a body under one of the three statuses that
    carry none. *)
Theorem proxy_response (c : Config) (o : Outside) (req : Request) (w : World) :
  pathname req = "/bounties" -> method req = "POST" ->
  exists res,
    handle c o req w = (Ok res, w)
    /\ (forall body code v,
          text req = Some body ->
          upstreamCreate o body = Responded code (Some v) ->
          200 <= code <= 599 -> nullBodyStatus code = false ->
          res = {| res_status := code; res_body := wire v |}
          /\ (finiteJson v = true -> res_body res = v))
    /\ (proxyFails o req -> res = proxyFailure)
    /\ (res = proxyFailure ->
        proxyFails o req
        \/ exists body code v,
             text req = Some body
             /\ upstreamCreate o body = Responded code (Some v)
             /\ (nullBodyStatus code = true
                 \/ code = res_status proxyFailure /\ wire v = res_body proxyFailure)).
Proof.
  intros P Me. eexists. split; [apply (handle_proxy c o req w P Me) |].
  unfold proxyFails.
  destruct (text req) as [body |].
  2: { repeat split; try discriminate; auto. }
  destruct (upstreamCreate o body) as [| code [v |]] eqn:U.
  - split; [intros b k v [= <-]; rewrite U; discriminate |].
    split; [reflexivity |]. intros _. left. right. exists body. auto.
  - destruct (statusInRange code) eqn:R.
    + split; [| split].
      * intros b k v' [= <-]. rewrite U. intros [= <- <-] _ _.
        split; [reflexivity |]. intros Fi. simpl. apply wire_finite, Fi.
      * intros [[=] | (b & [= <-] & X)]. rewrite U in X.
        destruct X as [[=] | [(k & [=]) | (k & v' & [= <- <-] & X)]]. congruence.
      * intros E. right. exists body, code, v.
        split; [reflexivity |]. split; [exact U |]. right.
        injection E as E1 E2. auto.
    + split; [| split].
      * intros b k v' [= <-]. rewrite U. intros [= <- <-] In.
        apply statusInRange_true in In. congruence.
      * reflexivity.
      * intros _. left. right. exists body. split; [reflexivity |].
        right; right. eauto.
  - split; [intros b k v [= <-]; rewrite U; discriminate |].
    split; [reflexivity |]. intros _. left. right. exists body.
    split; [reflexivity |]. right; left. eauto.
Qed.

Lemma proxy_response_witness :
  exists res,
    handle cfg1 (outCreate (Responded 201 (Some (JObj [("id", JStr "50")]))))
           postBounties (freshWorld NoFile)
    = (Ok res, freshWorld NoFile)
    /\ res = {| res_status := 201; res_body := JObj [("id", JStr "50")] |}.
Proof.
  destruct (proxy_response cfg1 (outCreate (Responded 201 (Some (JObj [("id", JStr "50")]))))
              postBounties (freshWorld NoFile) eq_refl eq_refl)
    as (res & R & M & _).
  exists res. split; [exact R |].
  apply (M "{}" 201 (JObj [("id", JStr "50")])); [reflexivity | reflexivity | lia | reflexivity].
Defined.

(** C7 as stated fails: the upstream answers with status 500 and a body
    that is not JSON.  It did return a response, yet the handler answers
    with the fixed 502 and not with the upstream's status. *)
Lemma proxy_undecodable_body_gives_502 :
  text postBounties = Some "{}"
  /\ upstreamCreate (outCreate (Responded 500 None)) "{}" = Responded 500 None
  /\ handle cfg1 (outCreate (Responded 500 None)) postBounties (freshWorld NoFile)
     = (Ok proxyFailure, freshWorld NoFile)
  /\ res_status proxyFailure <> 500.
Proof. repeat split. discriminate. Qed.

(** It fails as well on a response whose status no [Response] can carry:
    the upstream answers 700 with a JSON body and the handler answers with
    the fixed 502. *)
Example proxy_status_out_of_range_gives_502 :
  handle cfg1 (outCreate (Responded 700 (Some (JObj [("id", JStr "50")]))))
         postBounties (freshWorld NoFile)
  = (Ok proxyFailure, freshWorld NoFile).
Proof. reflexivity. Qed.

(** A number the upstream writes beyond the range of binary64 comes back
    as [null]. *)
Example proxy_rewrites_infinity :
  handle cfg1 (outCreate (Responded 200 (Some (JObj [("reward", JNum (Num.Inf false))]))))
         postBounties (freshWorld NoFile)
  = (Ok {| res_status := 200; res_body := JObj [("reward", JNull)] |}, freshWorld NoFile).
Proof. reflexivity. Qed.


(** * Further properties of the code *)

(** A cycle whose fetch fails, for use below. *)
Lemma poll_failed_fetch (c : Config) (o : Outside) (w : World) :
  fetched o = None ->
  exists w',
    poll c o w = (Ok {| r_created := 0; r_changed := 0; r_errors := 1 |}, w')
    /\ disk w' = disk w
    /\ posts (out w') = posts (out w).
Proof.
  intros F.
  destruct (poll_run c o w) as (s & R & [[_ [e ->]] | [(l & ? & ? & F' & _) | (l & ? & F' & _)]]);
    try congruence.
  eexists. split; [exact R |]. simpl.
  rewrite !posts_app, posts_loadWarning. simpl. rewrite !app_nil_r. auto.
Qed.

(** ** The state store *)

(** X1.  [loadState] never throws and never touches the state file: it
    returns the parsed content of a readable file, and the empty record
    for a missing file and for one that cannot be read as JSON, logging a
    warning in the latter case only. *)
Theorem loadState_recovers (w : World) :
  exists st w',
    loadState w = (Ok st, w')
    /\ disk w' = disk w /\ ticks w' = ticks w
    /\ posts (out w') = posts (out w) /\ writes (out w') = writes (out w)
    /\ (forall s, disk w = Stored s -> st = s /\ out w' = out w)
    /\ (disk w = NoFile -> st = emptyState /\ out w' = out w)
    /\ (disk w = Garbage -> st = emptyState /\ out w' = out w ++ [WarnCorrupt]).
Proof.
  rewrite loadState_run. eexists _, _. split; [reflexivity |]. simpl.
  rewrite posts_app, writes_app, posts_loadWarning, writes_loadWarning, !app_nil_r.
  repeat (split; [reflexivity |]).
  destruct (disk w) as [| | s0]; simpl; rewrite ?app_nil_r.
  - split; [discriminate |]. split; [auto | discriminate].
  - split; [discriminate |]. split; [discriminate | auto].
  - split; [intros s1 [= ->]; auto |]. split; discriminate.
Qed.

(** ** The webhook dispatcher *)

(** X3.  [fireWebhook] never throws, whatever the destinations answer.  It
    sends the payload once to every configured destination, in the
    configured order -- a destination that fails does not stop the later
    ones -- and logs one line per destination; it neither reads the clock
    nor touches the state file. *)
Theorem fireWebhook_isolated (c : Config) (o : Outside) (p : WebhookPayload) (w : World) :
  exists w',
    fireWebhook c o p w = (Ok tt, w')
    /\ disk w' = disk w /\ ticks w' = ticks w
    /\ posts (out w') = posts (out w) ++ dispatch p (WEBHOOK_URLS c)
    /\ writes (out w') = writes (out w)
    /\ effects w' = (effects w + 2 * length (WEBHOOK_URLS c))%nat.
Proof.
  rewrite fireWebhook_run. eexists. split; [reflexivity |]. simpl.
  rewrite posts_app, writes_app, posts_deliveries, writes_deliveries, app_nil_r.
  repeat (split; [reflexivity |]).
  unfold effects. simpl. rewrite length_app. f_equal.
  induction (WEBHOOK_URLS c) as [| u r IH]; [reflexivity |].
  change (deliveries o p (u :: r))
    with ((Post u p :: match hook o u p with
                       | Some code => [LogDelivered p u code]
                       | None => [LogWebhookError u NetworkError]
                       end) ++ deliveries o p r).
  rewrite length_app, IH. destruct (hook o u p); simpl; lia.
Qed.

(** All destinations fail: both are still tried. *)
Example fireWebhook_all_fail :
  posts (out (snd (fireWebhook cfgTwoHooks outSilent samplePayload (freshWorld NoFile))))
  = [(hookUrl, samplePayload); ("https://hooks.example/b", samplePayload)].
Proof. reflexivity. Qed.

(** ** Status changes *)

Lemma changed_status_processing_witness :
  exists s',
    processBounty cfg1 out1 bClaimed (frame (freshWorld (stored [("1", "open")])))
    = (Ok tt, s')
    /\ bounties (state s') = Some (<["1" := "claimed"]> (list_to_map [("1", "open")]))
    /\ created s' = 0%nat
    /\ changed s' = 1%nat
    /\ errors s' = 0%nat
    /\ posts (out (world s'))
       = [(hookUrl, {| event := bounty_claimed; bounty := bClaimed; timestamp := stamp |})].
Proof.
  apply (changed_status_processing cfg1 out1 bClaimed
           (frame (freshWorld (stored [("1", "open")]))) (list_to_map [("1", "open")])
           "open");
    [reflexivity | reflexivity | vm_compute; reflexivity | discriminate | discriminate].
Defined.

(** A status that names an inherited member of the table: a request is
    sent although the status has no event. *)
Example changed_to_inherited_status_sends_request :
  STATUS_TO_EVENT "toString" = Some (prototype_member "toString")
  /\ fst (poll cfg1 (sampleOutside (Responded 200 (Some [bToString])) true)
               (freshWorld (stored [("1", "open")])))
     = Ok {| r_created := 0; r_changed := 1; r_errors := 0 |}
  /\ posts (out (snd (poll cfg1 (sampleOutside (Responded 200 (Some [bToString])) true)
                           (freshWorld (stored [("1", "open")])))))
     = [(hookUrl, {| event := prototype_member "toString"; bounty := bToString;
                     timestamp := stamp |})].
Proof. repeat split; vm_compute; reflexivity. Qed.

(** A status no lookup finds: nothing is sent. *)
Example changed_to_unknown_status_sends_nothing :
  STATUS_TO_EVENT "archived" = None
  /\ posts (out (snd (poll cfg1
                           (sampleOutside
                              (Responded 200 (Some [sampleBounty "1" "archived" [] "1"])) true)
                           (freshWorld (stored [("1", "open")])))))
     = [].
Proof. split; vm_compute; reflexivity. Qed.

(** ** From the loop to the cycle *)

Section FromLoop.

Context (c : Config) (o : Outside).

(** What [poll] returns and leaves, read off the store the loop ends in. *)
Lemma poll_from_loop (w : World) (l : list Bounty) (r : Res unit) (s1 : Store) :
  fetched o = Some l ->
  forEach (processBounty c o) l (frame w) = (r, s1) ->
  exists res w',
    poll c o w = (Ok res, w')
    /\ r_created res = created s1 /\ r_changed res = changed s1
    /\ posts (out w') = posts (out (world s1))
    /\ match r with
       | Ok _ =>
           writes (out w') = writes (out (world s1)) ++ [state s1]
           /\ if writable o
              then disk w' = Stored (state s1) /\ r_errors res = errors s1
              else disk w' = disk (world s1) /\ r_errors res = S (errors s1)
       | Throw _ =>
           writes (out w') = writes (out (world s1))
           /\ disk w' = disk (world s1) /\ r_errors res = S (errors s1)
       end.
Proof.
  intros F R. rewrite poll_unfold, (pollBody_fetched c o l _ F), R.
  destruct r as [[] | e]; [destruct (writable o) |]; simpl;
    eexists _, _; (split; [reflexivity |]); simpl;
    rewrite ?posts_app, ?writes_app; simpl; rewrite ?app_nil_r; auto 10.
Qed.

(** The numbers the bounds below speak of. *)
Lemma length_dispatch (p : WebhookPayload) (urls : list string) :
  length (dispatch p urls) = length urls.
Proof. unfold dispatch. apply length_map. Qed.

Lemma length_posts_announce (ev : EventType) (b : Bounty) (w : World) :
  length (posts (out (announce c o ev b w)))
  = (length (posts (out w)) + length (WEBHOOK_URLS c))%nat.
Proof. rewrite posts_announce, length_app, length_dispatch. reflexivity. Qed.

(** One iteration counts the bounty at most once, and sends at most one
    payload to each destination for it. *)
Lemma step_bound (b : Bounty) (s : Store) :
  let s' := snd (processBounty c o b s) in
  let n := length (WEBHOOK_URLS c) in
  (created s + changed s <= created s' + changed s'
   /\ created s' + changed s'
      <= created s + changed s + (if matchesFilters c b then 1 else 0)
   /\ length (posts (out (world s))) <= length (posts (out (world s')))
   /\ length (posts (out (world s'))) + n * (created s + changed s)
      <= length (posts (out (world s))) + n * (created s' + changed s'))%nat.
Proof.
  destruct (matchesFilters c b) eqn:H.
  2: { rewrite processBounty_skip by exact H. simpl. lia. }
  destruct (bounties (state s)) as [m |] eqn:E.
  2: { rewrite processBounty_unreadable by assumption. simpl. lia. }
  destruct (slot_cases m (id b) (status b)) as [F | [[L T] | [(p & L & T & Q) | [L I]]]].
  - rewrite (processBounty_new c o b s m H E F). simpl.
    rewrite length_posts_announce. lia.
  - rewrite (processBounty_same c o b s m H E L T). simpl. lia.
  - rewrite (processBounty_changed c o b s m p H E L T Q). simpl.
    destruct (STATUS_TO_EVENT (status b)); rewrite ?length_posts_announce; lia.
  - rewrite (processBounty_inherited c o b s m H E L I). simpl.
    destruct (STATUS_TO_EVENT (status b)); rewrite ?length_posts_announce; lia.
Qed.

Lemma loop_bound (l : list Bounty) (s : Store) :
  let s' := snd (forEach (processBounty c o) l s) in
  let n := length (WEBHOOK_URLS c) in
  (created s + changed s <= created s' + changed s'
   /\ created s' + changed s' <= created s + changed s + length (passing c l)
   /\ length (posts (out (world s))) <= length (posts (out (world s')))
   /\ length (posts (out (world s'))) + n * (created s + changed s)
      <= length (posts (out (world s))) + n * (created s' + changed s'))%nat.
Proof.
  revert s. induction l as [| b l IH]; intros s; [simpl; lia |].
  simpl forEach. unfold bind. pose proof (step_bound b s) as Hb.
  unfold passing. simpl List.filter.
  destruct (processBounty c o b s) as [[[] | e] s1]; simpl in Hb.
  - specialize (IH s1). simpl in IH. fold (passing c l) in *.
    destruct (matchesFilters c b); simpl; nia.
  - simpl. fold (passing c l). destruct (matchesFilters c b); simpl; nia.
Qed.

End FromLoop.

(** X5.  A cycle counts each fetched bounty at most once: [created] plus
    [changed] never exceeds the number of fetched bounties that pass the
    filter, and the cycle sends at most one request per destination for
    every bounty it counted. *)
Theorem poll_counts_bounded (c : Config) (o : Outside) (w : World) (l : list Bounty) :
  fetched o = Some l ->
  exists r w',
    poll c o w = (Ok r, w')
    /\ (r_created r + r_changed r <= length (passing c l))%nat
    /\ (length (posts (out w'))
        <= length (posts (out w))
           + length (WEBHOOK_URLS c) * (r_created r + r_changed r))%nat.
Proof.
  intros F.
  destruct (forEach (processBounty c o) l (frame w)) as [r s1] eqn:R.
  destruct (poll_from_loop c o w l r s1 F R) as (res & w' & P & Cr & Ch & Po & _).
  exists res, w'. split; [exact P |].
  pose proof (loop_bound c o l (frame w)) as B. rewrite R in B. simpl in B.
  rewrite Cr, Ch, Po.
  assert (Fr : posts (out w ++ loadWarning (disk w)) = posts (out w))
    by (rewrite posts_app, posts_loadWarning; apply app_nil_r).
  rewrite Fr in B. nia.
Qed.

Lemma poll_counts_bounded_witness :
  exists r w',
    poll cfg1 outTwins (freshWorld NoFile) = (Ok r, w')
    /\ (r_created r + r_changed r <= 2)%nat
    /\ (length (posts (out w')) <= 0 + 1 * (r_created r + r_changed r))%nat.
Proof.
  apply (poll_counts_bounded cfg1 outTwins (freshWorld NoFile) [bOpen; bClaimed]).
  reflexivity.
Defined.

(** ** The state a cycle leaves *)

Section Leaves.

Context (c : Config).

Lemma recorded_app (l1 l2 : list Bounty) (m : gmap string string) :
  recorded c (l1 ++ l2) m = recorded c l2 (recorded c l1 m).
Proof. unfold recorded. apply fold_left_app. Qed.

(** The loop never removes an entry. *)
Lemma recorded_stays (l : list Bounty) (m : gmap string string) (k : string) :
  is_Some (m !! k) -> is_Some (recorded c l m !! k).
Proof.
  revert m. induction l as [| b l IH]; intros m H; [exact H |].
  rewrite recorded_cons. apply IH. destruct (matchesFilters c b); [| exact H].
  destruct (decide (id b = k)) as [<- | N].
  - rewrite lookup_setProp_eq by (right; exact H). eauto.
  - rewrite lookup_setProp_ne by exact N. exact H.
Qed.

(** The last bounty of an identifier that passes the filter decides the
    entry. *)
Lemma recorded_last (l1 l2 : list Bounty) (b : Bounty) (m : gmap string string) :
  matchesFilters c b = true ->
  id b <> "__proto__" ->
  (forall b', In b' l2 -> matchesFilters c b' = true -> id b' <> id b) ->
  recorded c (l1 ++ b :: l2) m !! id b = Some (status b).
Proof.
  intros H P K. rewrite recorded_app, recorded_cons, H, recorded_frame by exact K.
  apply lookup_setProp_eq. left. exact P.
Qed.

(** Bounties never seen before, with distinct identifiers that name no
    inherited member: each one that passes the filter is counted as
    created and announced once. *)
Lemma loop_all_new (o : Outside) (l : list Bounty) (s : Store) (m : gmap string string) :
  bounties (state s) = Some m ->
  (forall b, In b l -> matchesFilters c b = true ->
             m !! id b = None /\ inheritedKey (id b) = false) ->
  List.NoDup (map id (passing c l)) ->
  exists s',
    forEach (processBounty c o) l s = (Ok tt, s')
    /\ created s' = (created s + length (passing c l))%nat
    /\ changed s' = changed s
    /\ length (posts (out (world s')))
       = (length (posts (out (world s)))
          + length (WEBHOOK_URLS c) * length (passing c l))%nat.
Proof.
  revert s m. induction l as [| b l IH]; intros s m E A D.
  - exists s. simpl. repeat split; lia.
  - simpl forEach. unfold bind, passing in *. simpl List.filter in *.
    destruct (matchesFilters c b) eqn:H.
    + assert (F : falsy (getProp m (id b)) = true).
      { destruct (A b (or_introl eq_refl) H) as [L I].
        rewrite (getProp_absent m _ L I). reflexivity. }
      rewrite (processBounty_new c o b s m H E F).
      simpl in D. apply NoDup_cons_iff in D as [Nin D].
      assert (A' : forall b', In b' l -> matchesFilters c b' = true ->
                              <[id b := status b]> m !! id b' = None
                              /\ inheritedKey (id b') = false).
      { intros b' Hin H'. destruct (A b' (or_intror Hin) H') as [L' I'].
        split; [| exact I']. rewrite lookup_insert_ne; [exact L' |].
        intros Eq. apply Nin. rewrite Eq. apply in_map.
        apply filter_In. split; assumption. }
      match goal with
      | |- context [forEach _ l ?s1] =>
          destruct (IH s1 (<[id b := status b]> m) eq_refl A' D) as (s' & R & Cr & Ch & Po)
      end.
      exists s'. split; [exact R |]. simpl in Cr, Ch, Po.
      rewrite length_posts_announce in Po. simpl. nia.
    + rewrite (processBounty_skip c o b s H).
      apply (IH s m E); [intros b' Hin; apply A; right; exact Hin | exact D].
Qed.

End Leaves.

(** X6.  A cycle that finds nothing new still rewrites the state file:
    when the loaded record already holds the (non-empty) status of every
    fetched bounty that passes the filter, [poll] returns all zeros, sends
    nothing, and calls [saveState] once with the record it loaded. *)
Theorem quiet_cycle_rewrites_state
    (c : Config) (o : Outside) (w : World) (l : list Bounty) (m : gmap string string) :
  fetched o = Some l ->
  writable o = true ->
  bounties (loaded (disk w)) = Some m ->
  (forall b, In b l -> matchesFilters c b = true ->
             m !! id b = Some (status b) /\ status b <> "") ->
  exists w',
    poll c o w = (Ok {| r_created := 0; r_changed := 0; r_errors := 0 |}, w')
    /\ posts (out w') = posts (out w)
    /\ writes (out w') = writes (out w) ++ [loaded (disk w)]
    /\ disk w' = Stored (loaded (disk w)).
Proof.
  intros F W E K.
  pose proof (loop_quiet c o l (frame w) m E K) as R.
  destruct (poll_from_loop c o w l _ _ F R) as (res & w' & P & Cr & Ch & Po & Wr & D).
  rewrite W in D. destruct D as [D Er].
  exists w'. destruct res as [cr ch er]. simpl in *. subst cr ch er.
  split; [exact P |].
  rewrite Po, Wr, D, posts_app, writes_app, posts_loadWarning, writes_loadWarning,
    !app_nil_r. auto.
Qed.

Lemma quiet_cycle_rewrites_state_witness :
  exists w',
    poll cfg1 outQuiet (freshWorld (stored [("1", "open")]))
    = (Ok {| r_created := 0; r_changed := 0; r_errors := 0 |}, w')
    /\ posts (out w') = []
    /\ writes (out w') = [loaded (stored [("1", "open")])]
    /\ disk w' = Stored (loaded (stored [("1", "open")])).
Proof.
  apply (quiet_cycle_rewrites_state cfg1 outQuiet (freshWorld (stored [("1", "open")]))
           [bOpen] (list_to_map [("1", "open")])); try reflexivity.
  intros b [<- | []] _. split; [vm_compute; reflexivity | discriminate].
Defined.

(** X7.  The first cycle indexes everything: with no state file, or one
    that cannot be parsed, and fetched bounties whose identifiers are
    distinct among those passing the filter and name no member of
    [Object.prototype], [poll] counts every passing bounty as created and
    none as changed, and sends one request per destination for each of
    them. *)
Theorem first_cycle_indexes_all (c : Config) (o : Outside) (w : World) (l : list Bounty) :
  fetched o = Some l ->
  disk w = NoFile \/ disk w = Garbage ->
  List.NoDup (map id (passing c l)) ->
  (forall b, In b (passing c l) -> inheritedKey (id b) = false) ->
  exists r w',
    poll c o w = (Ok r, w')
    /\ r_created r = length (passing c l)
    /\ r_changed r = 0%nat
    /\ length (posts (out w'))
       = (length (posts (out w)) + length (WEBHOOK_URLS c) * length (passing c l))%nat.
Proof.
  intros F D N I.
  assert (E : bounties (state (frame w)) = Some ∅) by (destruct D as [D | D]; simpl; rewrite D; reflexivity).
  destruct (loop_all_new c o l (frame w) ∅ E) as (s1 & R & Cr & Ch & Po);
    [| exact N |].
  { intros b Hin H. split; [apply lookup_empty |].
    apply I, filter_In. split; assumption. }
  destruct (poll_from_loop c o w l _ _ F R) as (res & w' & P & Cr' & Ch' & Po' & _).
  exists res, w'. split; [exact P |].
  rewrite Cr', Ch', Po', Cr, Ch, Po. simpl.
  rewrite posts_app, posts_loadWarning, app_nil_r. auto.
Qed.

Lemma first_cycle_indexes_all_witness :
  exists r w',
    poll cfgRust outMixed (freshWorld Garbage) = (Ok r, w')
    /\ r_created r = length (passing cfgRust [bDesign; bOpen])
    /\ r_changed r = 0%nat
    /\ length (posts (out w'))
       = (0 + length (WEBHOOK_URLS cfgRust) * length (passing cfgRust [bDesign; bOpen]))%nat.
Proof.
  apply (first_cycle_indexes_all cfgRust outMixed (freshWorld Garbage) [bDesign; bOpen]).
  - reflexivity.
  - right. reflexivity.
  - vm_compute. constructor; [intros [] | constructor].
  - intros b [<- | []]. reflexivity.
Defined.

(** X8.  The last status wins: after a cycle that saves its state, the
    entry of a fetched bounty that passes the filter is that bounty's
    status, provided its identifier is not [__proto__] and no later bounty
    of the list that passes the filter bears the same identifier. *)
Theorem last_status_wins
    (c : Config) (o : Outside) (w : World) (l1 l2 : list Bounty) (b : Bounty)
    (m : gmap string string) :
  fetched o = Some (l1 ++ b :: l2) ->
  writable o = true ->
  bounties (loaded (disk w)) = Some m ->
  matchesFilters c b = true ->
  id b <> "__proto__" ->
  (forall b', In b' l2 -> matchesFilters c b' = true -> id b' <> id b) ->
  entry (disk (snd (poll c o w))) (id b) = Some (status b).
Proof.
  intros F W E H Np K.
  destruct (loop_readable c o (l1 ++ b :: l2) (frame w) m E) as (s1 & R & E1 & _).
  destruct (poll_from_loop c o w _ _ _ F R) as (res & w' & P & _ & _ & _ & _ & D).
  rewrite W in D. destruct D as [D _]. rewrite P. simpl. rewrite D. simpl.
  rewrite E1. apply recorded_last; assumption.
Qed.

Lemma last_status_wins_witness :
  entry (disk (snd (poll cfg1 outTwins (freshWorld NoFile)))) (id bClaimed)
  = Some (status bClaimed).
Proof.
  apply (last_status_wins cfg1 outTwins (freshWorld NoFile) [bOpen] [] bClaimed ∅);
    try reflexivity; [discriminate |].
  intros b' [].
Defined.

(** X9.  Entries are never removed: an identifier that has a status in the
    state file still has one after any number of cycles whose writes
    succeed, whatever list of bounties the upstream returns and also when
    it returns none -- the bounty may be no longer listed or no longer pass
    the filter. *)
Theorem entries_never_removed
    (c : Config) (runs : list Outside) (w : World) (k v : string) :
  (forall o, In o runs -> writable o = true) ->
  entry (disk w) k = Some v ->
  exists v', entry (disk (polls c runs w)) k = Some v'.
Proof.
  revert w v. induction runs as [| o runs IH]; intros w v Wr H; [eauto |].
  pose proof (Wr o (or_introl eq_refl)) as Wo.
  assert (Wr' : forall o', In o' runs -> writable o' = true)
    by (intros o' Hin; apply Wr; right; exact Hin).
  simpl. assert (S1 : exists v1, entry (disk (snd (poll c o w))) k = Some v1).
  { destruct (fetched o) as [l |] eqn:F.
    - destruct (loop_facts c o l (frame w)) as (r & s1 & R & E1 & _ & D1 & _).
      destruct (poll_from_loop c o w l r s1 F R) as (res & w' & P & _ & _ & _ & X).
      rewrite P. simpl snd.
      assert (Keep : disk w' = disk (world s1) -> exists v1, entry (disk w') k = Some v1).
      { intros ->. rewrite D1. simpl. eauto. }
      destruct r as [[] | e]; [| apply Keep; apply X].
      destruct X as [_ X]. rewrite Wo in X.
      destruct X as [-> _]. simpl. rewrite E1. simpl.
      rewrite entry_loaded in H.
      destruct (bounties (loaded (disk w))) as [m |]; [| discriminate]. simpl.
      destruct (recorded_stays c l m k) as [v1 Hv1]; [rewrite H; eauto |].
      rewrite Hv1. eauto.
    - destruct (poll_failed_fetch c o w F) as (w' & P & D & _).
      rewrite P. simpl. rewrite D. eauto. }
  destruct S1 as [v1 H1]. apply (IH _ v1 Wr' H1).
Qed.

Lemma entries_never_removed_witness :
  exists v', entry (disk (polls cfgRust [outDone; outMixed] (freshWorld (stored [("9", "open")]))))
               "9" = Some v'.
Proof.
  apply (entries_never_removed cfgRust [outDone; outMixed]
           (freshWorld (stored [("9", "open")])) "9" "open").
  - intros o [<- | [<- | []]]; reflexivity.
  - vm_compute. reflexivity.
Defined.

(** ** What a cycle depends on *)

Section Dependence.

Context (c1 c2 : Config) (o1 o2 : Outside).
Hypothesis sameFilter : forall b, matchesFilters c1 b = matchesFilters c2 b.

Lemma step_agree_filters (b : Bounty) (s1 s2 : Store) :
  agree s1 s2 ->
  fst (processBounty c1 o1 b s1) = fst (processBounty c2 o2 b s2)
  /\ agree (snd (processBounty c1 o1 b s1)) (snd (processBounty c2 o2 b s2)).
Proof.
  intros A. pose proof A as (St & Cr & Ch & Er & Dk).
  pose proof (sameFilter b) as SF.
  destruct (matchesFilters c2 b) eqn:H.
  2: { rewrite !processBounty_skip by assumption. split; [reflexivity | exact A]. }
  destruct (bounties (state s1)) as [m |] eqn:E1.
  2: { rewrite !processBounty_unreadable by congruence. split; [reflexivity | exact A]. }
  assert (E2 : bounties (state s2) = Some m) by congruence.
  destruct (slot_cases m (id b) (status b)) as [F | [[L T] | [(p & L & T & Q) | [L I]]]].
  - rewrite (processBounty_new c1 o1 b s1 m SF E1 F), (processBounty_new c2 o2 b s2 m H E2 F).
    split; [reflexivity |]. unfold agree; simpl. rewrite !disk_announce. auto.
  - rewrite (processBounty_same c1 o1 b s1 m SF E1 L T),
            (processBounty_same c2 o2 b s2 m H E2 L T).
    split; [reflexivity | exact A].
  - rewrite (processBounty_changed c1 o1 b s1 m p SF E1 L T Q),
            (processBounty_changed c2 o2 b s2 m p H E2 L T Q).
    split; [reflexivity |]. unfold agree; simpl.
    destruct (STATUS_TO_EVENT (status b)); rewrite ?disk_announce; auto.
  - rewrite (processBounty_inherited c1 o1 b s1 m SF E1 L I),
            (processBounty_inherited c2 o2 b s2 m H E2 L I).
    split; [reflexivity |]. unfold agree; simpl.
    destruct (STATUS_TO_EVENT (status b)); rewrite ?disk_announce; auto.
Qed.

Lemma loop_agree_filters (l : list Bounty) (s1 s2 : Store) :
  agree s1 s2 ->
  fst (forEach (processBounty c1 o1) l s1) = fst (forEach (processBounty c2 o2) l s2)
  /\ agree (snd (forEach (processBounty c1 o1) l s1))
            (snd (forEach (processBounty c2 o2) l s2)).
Proof.
  revert s1 s2. induction l as [| b l IH]; intros s1 s2 A.
  - split; [reflexivity | exact A].
  - simpl. unfold bind. destruct (step_agree_filters b s1 s2 A) as [R A'].
    destruct (processBounty c1 o1 b s1) as [r1 t1], (processBounty c2 o2 b s2) as [r2 t2].
    simpl in R, A'. subst r2. destruct r1 as [[] | e].
    + apply IH, A'.
    + split; [reflexivity | exact A'].
Qed.

(** Two cycles that start from the same state file and get the same
    answer from the upstream count the same; if moreover their writes fare
    alike, they return the same result and leave the same file. *)
Lemma poll_agree_filters (w1 w2 : World) :
  disk w1 = disk w2 -> upstream o1 = upstream o2 ->
  exists r1 r2 w1' w2',
    poll c1 o1 w1 = (Ok r1, w1') /\ poll c2 o2 w2 = (Ok r2, w2')
    /\ r_created r1 = r_created r2 /\ r_changed r1 = r_changed r2
    /\ (writable o1 = writable o2 -> r1 = r2 /\ disk w1' = disk w2').
Proof.
  intros Dk U. rewrite !poll_unfold.
  assert (F : fetched o1 = fetched o2) by (unfold fetched; rewrite U; reflexivity).
  destruct (fetched o2) as [l |] eqn:F2.
  - rewrite (pollBody_fetched c1 o1 l _ F), (pollBody_fetched c2 o2 l _ F2).
    assert (A0 : agree (frame w1) (frame w2)) by (unfold agree; simpl; rewrite Dk; auto).
    destruct (loop_agree_filters l (frame w1) (frame w2) A0) as [R A].
    destruct (forEach (processBounty c1 o1) l (frame w1)) as [r1 t1],
             (forEach (processBounty c2 o2) l (frame w2)) as [r2 t2].
    simpl in R, A. subst r2. destruct A as (St & Cr & Ch & Er & Dk').
    destruct r1 as [[] | e]; [destruct (writable o1), (writable o2) |];
      eexists _, _, _, _; (split; [reflexivity |]); (split; [reflexivity |]);
      unfold summary; simpl; rewrite ?St, ?Cr, ?Ch, ?Er, ?Dk';
      repeat split; try reflexivity; try discriminate.
  - destruct (pollBody_fetch_fails c1 o1 (frame w1) F) as [e1 ->].
    destruct (pollBody_fetch_fails c2 o2 (frame w2) F2) as [e2 ->].
    eexists _, _, _, _. split; [reflexivity |]. split; [reflexivity |].
    simpl. rewrite Dk. auto.
Qed.

End Dependence.

(** X10.  The result of a cycle and the state file it leaves are decided
    by the state file it starts from, the upstream's answer and whether
    the write succeeds: the clock, the effects of earlier cycles and the
    answers of the webhook destinations have no part in them. *)
Theorem poll_decided_by_state_and_upstream
    (c : Config) (o1 o2 : Outside) (w1 w2 : World) :
  disk w1 = disk w2 ->
  upstream o1 = upstream o2 ->
  writable o1 = writable o2 ->
  fst (poll c o1 w1) = fst (poll c o2 w2)
  /\ disk (snd (poll c o1 w1)) = disk (snd (poll c o2 w2)).
Proof.
  intros D U W.
  destruct (poll_agree_filters c c o1 o2 (fun _ => eq_refl) w1 w2 D U)
    as (r1 & r2 & w1' & w2' & P1 & P2 & _ & _ & X).
  rewrite P1, P2. simpl. destruct (X W) as [-> D']. auto.
Qed.

Lemma poll_decided_by_state_and_upstream_witness :
  fst (poll cfg1 outQuiet (freshWorld NoFile))
  = fst (poll cfg1 outSilent {| disk := NoFile; ticks := 7; out := [WarnCorrupt] |})
  /\ disk (snd (poll cfg1 outQuiet (freshWorld NoFile)))
     = disk (snd (poll cfg1 outSilent {| disk := NoFile; ticks := 7; out := [WarnCorrupt] |})).
Proof.
  apply (poll_decided_by_state_and_upstream cfg1 outQuiet outSilent (freshWorld NoFile)
           {| disk := NoFile; ticks := 7; out := [WarnCorrupt] |}); reflexivity.
Defined.

(** X11.  Without destinations a cycle sends nothing, and yet returns the
    same result and leaves the same state file as it would with any list
    of destinations under the same filter settings. *)
Theorem no_destinations (c : Config) (o : Outside) (w : World) :
  WEBHOOK_URLS c = [] ->
  posts (out (snd (poll c o w))) = posts (out w)
  /\ forall c',
       FILTER_TAGS c' = FILTER_TAGS c ->
       FILTER_MIN_REWARD c' = FILTER_MIN_REWARD c ->
       fst (poll c' o w) = fst (poll c o w)
       /\ disk (snd (poll c' o w)) = disk (snd (poll c o w)).
Proof.
  intros U. split.
  - destruct (fetched o) as [l |] eqn:F.
    + destruct (loop_facts c o l (frame w)) as (r & s1 & R & _ & _ & _ & _ & sent & Ps & _).
      destruct (poll_from_loop c o w l r s1 F R) as (res & w' & P & _ & _ & Po & _).
      rewrite P. simpl snd. rewrite Po.
      pose proof (loop_bound c o l (frame w)) as (_ & _ & _ & B).
      cbv zeta in B. rewrite R in B. cbn [snd] in B.
      rewrite U, Ps, frame_posts in B. simpl in B.
      rewrite Ps, frame_posts.
      destruct sent; [apply app_nil_r |]. rewrite length_app in B. simpl in B. lia.
    + destruct (poll_failed_fetch c o w F) as (w' & P & _ & Po).
      rewrite P. exact Po.
  - intros c' T Mi.
    assert (SF : forall b, matchesFilters c' b = matchesFilters c b)
      by (intros b; unfold matchesFilters; rewrite T, Mi; reflexivity).
    destruct (poll_agree_filters c' c o o SF w w eq_refl eq_refl)
      as (r1 & r2 & w1' & w2' & P1 & P2 & _ & _ & X).
    rewrite P1, P2. simpl. destruct (X eq_refl) as [-> D']. auto.
Qed.

Lemma no_destinations_witness :
  posts (out (snd (poll cfgNoHooks outPair (freshWorld NoFile)))) = []
  /\ fst (poll cfg1 outPair (freshWorld NoFile))
     = fst (poll cfgNoHooks outPair (freshWorld NoFile)).
Proof.
  destruct (no_destinations cfgNoHooks outPair (freshWorld NoFile) eq_refl) as [H1 H2].
  split; [exact H1 |]. apply (H2 cfg1); reflexivity.
Defined.

(** A cycle whose write is refused leaves the file alone and reports one
    error. *)
Lemma poll_refused (c : Config) (o : Outside) (w : World) :
  writable o = false ->
  exists r w', poll c o w = (Ok r, w') /\ disk w' = disk w /\ r_errors r = 1%nat.
Proof.
  intros W. destruct (fetched o) as [l |] eqn:F.
  - destruct (loop_facts c o l (frame w)) as (r & s1 & R & _ & Er & D & _).
    destruct (poll_from_loop c o w l r s1 F R) as (res & w' & P & _ & _ & _ & X).
    exists res, w'. split; [exact P |]. simpl in Er, D.
    destruct r as [[] | e]; [rewrite W in X |]; destruct X as (_ & -> & ->);
      rewrite D, Er; auto.
  - destruct (poll_failed_fetch c o w F) as (w' & P & D & _).
    eexists _, w'. split; [exact P |]. auto.
Qed.

(** X12.  A refused write makes the next cycle start over: the file is as
    it was, so a following cycle that gets the same answer from the
    upstream counts -- and announces -- the same bounties again. *)
Theorem refused_write_repeats (c : Config) (o1 o2 : Outside) (w : World) :
  writable o1 = false ->
  upstream o2 = upstream o1 ->
  exists r1 w1 r2 w2,
    poll c o1 w = (Ok r1, w1)
    /\ poll c o2 w1 = (Ok r2, w2)
    /\ disk w1 = disk w
    /\ r_errors r1 = 1%nat
    /\ r_created r2 = r_created r1 /\ r_changed r2 = r_changed r1.
Proof.
  intros W U.
  destruct (poll_refused c o1 w W) as (r1 & w1 & P1 & D1 & E1).
  destruct (poll_agree_filters c c o2 o1 (fun _ => eq_refl) w1 w D1 U)
    as (r2 & r1' & w2 & w1' & P2 & P1' & Cr & Ch & _).
  rewrite P1 in P1'. injection P1' as <- <-.
  exists r1, w1, r2, w2. auto 10.
Qed.

Lemma refused_write_repeats_witness :
  exists r1 w1 r2 w2,
    poll cfg1 outRefused (freshWorld NoFile) = (Ok r1, w1)
    /\ poll cfg1 outQuiet w1 = (Ok r2, w2)
    /\ disk w1 = NoFile
    /\ r_errors r1 = 1%nat
    /\ r_created r2 = r_created r1 /\ r_changed r2 = r_changed r1.
Proof.
  apply (refused_write_repeats cfg1 outRefused outQuiet (freshWorld NoFile)); reflexivity.
Defined.

(** ** The HTTP front door *)

(** X13.  The request handler never throws.  [/health] answers with the
    health report whatever the method; a request that is neither
    [/health], [POST /bounties] nor [POST /poll] gets the 404 response;
    [POST /poll] answers 200 with the counters of the cycle it ran.  Only
    [POST /poll] changes the world: every other request leaves the state
    file and the effects as they were. *)
Theorem handle_routes (c : Config) (o : Outside) (req : Request) (w : World) :
  exists res w',
    handle c o req w = (Ok res, w')
    /\ (isHealth req = true -> res = health c /\ w' = w)
    /\ (isHealth req = false -> isProxy req = true -> w' = w)
    /\ (isHealth req = false -> isProxy req = false -> isPoll req = false ->
        res = notFound /\ w' = w)
    /\ (isHealth req = false -> isProxy req = false -> isPoll req = true ->
        exists r, poll c o w = (Ok r, w')
                  /\ res = {| res_status := 200; res_body := statsJson r |}).
Proof.
  unfold handle, isHealth, isProxy, isPoll.
  destruct (String.eqb (pathname req) "/health").
  { eexists _, _. split; [reflexivity |]. repeat split; discriminate. }
  destruct (String.eqb (pathname req) "/bounties" && String.eqb (method req) "POST").
  { unfold tryCatch, bind, reqText, httpCreate, resJson, responseJson, ret, throw.
    destruct (text req) as [body |];
      [destruct (upstreamCreate o body) as [| code [v |]];
       [| simpl; destruct (statusInRange code) |] |];
      eexists _, _; (split; [reflexivity |]); repeat split; discriminate. }
  destruct (String.eqb (pathname req) "/poll" && String.eqb (method req) "POST").
  - destruct (poll_total c o w) as (r & w' & P & _).
    unfold bind. rewrite P. eexists _, _. split; [reflexivity |].
    repeat split; try discriminate. intros _ _ _. exists r. auto.
  - eexists _, _. split; [reflexivity |]. repeat split; discriminate.
Qed.

(** A [GET] on the two [POST] routes is not found. *)
Example handle_get_poll :
  handle cfg1 outQuiet {| pathname := "/poll"; method := "GET"; text := Some "" |}
         (freshWorld NoFile)
  = (Ok notFound, freshWorld NoFile).
Proof. reflexivity. Qed.

(** ** Numbers read from the environment *)

Lemma Qred_inject_Z (z : Z) : Qred (inject_Z z) = inject_Z z.
Proof.
  unfold Qred, inject_Z.
  generalize (Z.ggcd_gcd z 1) (Z.ggcd_correct_divisors z 1).
  destruct (Z.ggcd z 1) as (g, (n, d)). simpl. rewrite Z.gcd_1_r.
  intros -> (Hn & Hd). rewrite Z.mul_1_l in Hn, Hd.
  assert (d = 1) by (destruct d; simpl in *; congruence). subst. reflexivity.
Qed.

(** [parseInt] gives an integer or [NaN]. *)
Lemma parseInt10_integer (s : string) :
  parseInt10 s = Num.NaN \/ exists z, parseInt10 s = Num.ofZ z.
Proof.
  unfold parseInt10. destruct (readSign (trimStartL (chars s))) as [neg r].
  destruct (digits 10 0 0%nat r) as [[v n] rest]. destruct n; eauto.
Qed.

(** Milliseconds back to seconds. *)
Lemma seconds_round_trip (x : Num.t) :
  x = Num.NaN \/ (exists z, x = Num.ofZ z) ->
  Num.div (Num.mul x (Num.ofZ 1000)) (Num.ofZ 1000) = x.
Proof.
  intros [-> | [z ->]]; [reflexivity |].
  unfold Num.ofZ, Num.mul, Num.div.
  change (Num.Qis_zero (inject_Z 1000)) with false. cbv iota.
  f_equal. rewrite <- (Qred_inject_Z z) at 2. apply Qred_complete.
  rewrite Qred_correct. field.
Qed.

(** X14.  [/health] reports the configuration as loaded: the number of
    configured destinations, the configured tags, and as poll interval the
    number of seconds [parseInt] read from [POLL_INTERVAL] (60 when the
    variable is unset or empty) -- multiplying by 1000 and dividing by
    1000 gives the seconds back -- or [null] when no integer stands at the
    head of the variable, the interval then being [NaN].  The bound keeps
    the product within the integers binary64 holds exactly. *)
Theorem health_reports_config (e : ProcessEnv) (x : Num.t) :
  parseInt10 (orDefault (env_POLL_INTERVAL e) "60") = x ->
  x = Num.NaN \/ (exists z, x = Num.ofZ z /\ Z.abs z * 1000 < 2 ^ 53) ->
  res_status (health (loadConfig e)) = 200
  /\ res_body (health (loadConfig e))
     = JObj [("status", JStr "ok");
             ("webhooks",
              JNum (Num.ofZ (Z.of_nat (length (WEBHOOK_URLS (loadConfig e))))));
             ("filterTags", JArr (map JStr (FILTER_TAGS (loadConfig e))));
             ("pollInterval", jnum x)].
Proof.
  intros P B. split; [reflexivity |].
  unfold health. cbn [res_body].
  change (POLL_INTERVAL (loadConfig e))
    with (Num.mul (parseInt10 (orDefault (env_POLL_INTERVAL e) "60")) (Num.ofZ 1000)).
  rewrite P, seconds_round_trip by (destruct B as [-> | (z & -> & _)]; eauto).
  cbn [wire map fst snd jnum Num.ofZ]. rewrite map_map.
  rewrite (map_ext (fun t => wire (JStr t)) JStr) by reflexivity. reflexivity.
Qed.

Lemma health_reports_config_witness :
  res_body (health (loadConfig (envNumeric (Some "soon") None None)))
  = JObj [("status", JStr "ok");
          ("webhooks", JNum (Num.ofZ 0));
          ("filterTags", JArr []);
          ("pollInterval", JNull)].
Proof.
  apply (proj2 (health_reports_config (envNumeric (Some "soon") None None) Num.NaN
                  eq_refl (or_introl eq_refl))).
Defined.

(** A poll interval with a unit after the number: the number is read. *)
Example health_reads_leading_number :
  res_body (health (loadConfig (envNumeric (Some " 30s") None None)))
  = JObj [("status", JStr "ok");
          ("webhooks", JNum (Num.ofZ 0));
          ("filterTags", JArr []);
          ("pollInterval", JNum (Num.ofZ 30))].
Proof. reflexivity. Qed.


(** ** The lists read from the environment *)

Lemma trimStartL_idem (l : list ascii) : trimStartL (trimStartL l) = trimStartL l.
Proof.
  induction l as [| a l IH]; [reflexivity |].
  simpl. destruct (isWhite a) eqn:W; [exact IH |]. simpl. rewrite W. reflexivity.
Qed.

Lemma trimStartL_snoc (l : list ascii) (a : ascii) :
  isWhite a = false -> trimStartL (l ++ [a]) = trimStartL l ++ [a].
Proof.
  intros W. induction l as [| x l IH]; simpl; [rewrite W; reflexivity |].
  destruct (isWhite x); [exact IH | reflexivity].
Qed.

Lemma trimEndL_cons (a : ascii) (l : list ascii) :
  isWhite a = false -> trimEndL (a :: l) = a :: trimEndL l.
Proof.
  intros W. unfold trimEndL. simpl rev.
  rewrite (trimStartL_snoc _ _ W), rev_app_distr. reflexivity.
Qed.

Lemma trimEndL_idem (l : list ascii) : trimEndL (trimEndL l) = trimEndL l.
Proof. unfold trimEndL. rewrite rev_involutive, trimStartL_idem. reflexivity. Qed.

(** Trimming the end keeps the start trimmed. *)
Lemma trimStartL_trimEndL (l : list ascii) :
  trimStartL (trimEndL (trimStartL l)) = trimEndL (trimStartL l).
Proof.
  induction l as [| a l IH]; [reflexivity |].
  simpl. destruct (isWhite a) eqn:W; [exact IH |].
  rewrite (trimEndL_cons _ _ W). simpl. rewrite W. reflexivity.
Qed.

Lemma trim_idem (s : string) : trim (trim s) = trim s.
Proof.
  unfold trim. rewrite chars_unchars, trimStartL_trimEndL, trimEndL_idem. reflexivity.
Qed.

Lemma isWhite_lowerChar (a : ascii) : isWhite (lowerChar a) = isWhite a.
Proof. destruct a as [[] [] [] [] [] [] [] []]; reflexivity. Qed.

Lemma trimStartL_lower (l : list ascii) :
  trimStartL (map lowerChar l) = map lowerChar (trimStartL l).
Proof.
  induction l as [| a l IH]; [reflexivity |].
  simpl. rewrite isWhite_lowerChar. destruct (isWhite a); [exact IH | reflexivity].
Qed.

(** Lower-casing and trimming commute. *)
Lemma trim_toLowerCase (s : string) : trim (toLowerCase s) = toLowerCase (trim s).
Proof.
  unfold trim, toLowerCase, trimEndL.
  rewrite !chars_unchars, trimStartL_lower, <- map_rev, trimStartL_lower, map_rev.
  reflexivity.
Qed.

(** X15.  The destination and tag lists read from the environment are
    clean: every configured destination is non-empty and carries no white
    space at either end; every configured tag is moreover in lower case.
    Blank entries between commas are dropped, so an unset or empty variable
    gives the empty list. *)
Theorem configured_lists_clean (e : ProcessEnv) :
  (forall u, In u (WEBHOOK_URLS (loadConfig e)) -> u <> "" /\ trimmed u)
  /\ (forall t, In t (FILTER_TAGS (loadConfig e)) ->
        t <> "" /\ trimmed t /\ toLowerCase t = t)
  /\ (unsetOrEmpty (env_WEBHOOK_URLS e) -> WEBHOOK_URLS (loadConfig e) = [])
  /\ (unsetOrEmpty (env_FILTER_TAGS e) -> FILTER_TAGS (loadConfig e) = []).
Proof.
  split; [| split; [| split]].
  - simpl. intros u H. apply filter_In in H as [H T]. apply truthy_true in T.
    split; [exact T |]. apply in_map_iff in H as (x & <- & _). apply trim_idem.
  - simpl. intros t H. apply filter_In in H as [H T]. apply truthy_true in T.
    split; [exact T |]. apply in_map_iff in H as (x & <- & _). split.
    + unfold trimmed. rewrite trim_toLowerCase, trim_idem. reflexivity.
    + apply toLowerCase_idem.
  - intros H. simpl. rewrite (orDefault_unset _ _ H). reflexivity.
  - intros H. simpl. rewrite (orDefault_unset _ _ H). reflexivity.
Qed.

(** Blank entries are dropped and the others trimmed. *)
Example configured_lists_sample :
  WEBHOOK_URLS (loadConfig {| env_BOUNTY_API := None;
                              env_WEBHOOK_URLS := Some " https://a.example ,, https://b.example,  ";
                              env_POLL_INTERVAL := None;
                              env_FILTER_TAGS := Some "Rust , ,AI";
                              env_FILTER_MIN_REWARD := None; env_PORT := None |})
  = ["https://a.example"; "https://b.example"]
  /\ FILTER_TAGS (loadConfig {| env_BOUNTY_API := None;
                                env_WEBHOOK_URLS := Some " https://a.example ,, https://b.example,  ";
                                env_POLL_INTERVAL := None;
                                env_FILTER_TAGS := Some "Rust , ,AI";
                                env_FILTER_MIN_REWARD := None; env_PORT := None |})
     = ["rust"; "ai"].
Proof. split; reflexivity. Qed.

(** ** What the filter looks at *)

(** X16.  The filter reads a bounty's tags only through their lower-case
    forms: two bounties whose tags agree up to case (and whose rewards
    agree) get the same verdict, under any configuration. *)
Theorem filter_ignores_tag_case (c : Config) (b : Bounty) (ts : list string) :
  map toLowerCase ts = map toLowerCase (tags b) ->
  matchesFilters c (withTags ts b) = matchesFilters c b.
Proof.
  intros H. unfold matchesFilters. simpl.
  assert (E : forall l, existsb (fun t => includes (FILTER_TAGS c) (toLowerCase t)) l
                        = existsb (includes (FILTER_TAGS c)) (map toLowerCase l)).
  { induction l as [| x l IH]; simpl; [reflexivity | rewrite IH; reflexivity]. }
  rewrite !E, H. reflexivity.
Qed.

Lemma filter_ignores_tag_case_witness :
  matchesFilters cfgRust (withTags ["RuSt"] bRusty) = matchesFilters cfgRust bRusty.
Proof.
  apply (filter_ignores_tag_case cfgRust bRusty ["RuSt"]). reflexivity.
Defined.

(** X17.  A threshold that is not a positive number switches the reward
    check off: when [FILTER_MIN_REWARD] is unset or empty, or its text has
    no number at its head (so that the threshold is [NaN]), the verdict of
    the filter does not depend on the bounty's reward. *)
Theorem threshold_off (e : ProcessEnv) (b : Bounty) (r : string) :
  unsetOrEmpty (env_FILTER_MIN_REWARD e)
  \/ (exists s, env_FILTER_MIN_REWARD e = Some s /\ s <> "" /\ parseFloat s = Num.NaN) ->
  matchesFilters (loadConfig e) (withReward r b) = matchesFilters (loadConfig e) b.
Proof.
  intros H.
  assert (G : Num.gt (FILTER_MIN_REWARD (loadConfig e)) (Num.ofZ 0) = false).
  { simpl. destruct H as [H | (s & E & N & P)].
    - rewrite (orDefault_unset _ _ H). reflexivity.
    - rewrite E, (orDefault_set _ _ N), P. reflexivity. }
  unfold matchesFilters. rewrite G. reflexivity.
Qed.

Lemma threshold_off_witness :
  matchesFilters (loadConfig (envMinReward "ten")) (withReward "1" bOpen)
  = matchesFilters (loadConfig (envMinReward "ten")) bOpen.
Proof.
  apply (threshold_off (envMinReward "ten") bOpen "1").
  right. exists "ten". split; [reflexivity |]. split; [discriminate | reflexivity].
Defined.
